(** * A model of [scripts/python_learning_editor.py]

    The editor is a Tk application: one object ([PythonLearningEditor])
    whose methods run as callbacks of the Tk event loop.  The embedding is
    shallow: the attributes and widget contents the methods read and write
    are the fields of one record, [editor]; every method is a function on
    that record; what the user answers in a dialog and what the host
    interpreter does with a program text are arguments.

    Conventions.
    - A Python [str] is a Rocq [string].  One character of the model is one
      byte; for ASCII text that is one code point, and text outside ASCII
      appears as its UTF-8 bytes.  Case mapping, white space and word
      characters are those of the ASCII range.
    - A position in the buffer is the number of characters before it; Tk's
      ["line.column"] indices and these offsets determine each other.
    - The gutter, the helper panel and the status bar only display values
      derived from the buffer and the cursor; they are not fields of the
      record. *)

From Stdlib Require Import String Ascii List Arith Bool Lia.
From Stdlib Require Import DecimalString Sorted.
Import ListNotations.

Local Open Scope string_scope.
Local Open Scope list_scope.
Local Open Scope nat_scope.

(** ** Python strings *)

Module PyStr.

Definition nl : string := String (ascii_of_nat 10) EmptyString.
Definition cr : string := String (ascii_of_nat 13) EmptyString.

(** [str.isspace] on one ASCII character: TAB, LF, VT, FF, CR, the four
    separators FS, GS, RS, US, and the space. *)
Definition isspace (c : ascii) : bool :=
  let n := nat_of_ascii c in
  ((9 <=? n) && (n <=? 13)) || ((28 <=? n) && (n <=? 32)).

Fixpoint lstrip_chars (l : list ascii) : list ascii :=
  match l with
  | c :: l' => if isspace c then lstrip_chars l' else l
  | [] => []
  end.

Definition rstrip_chars (l : list ascii) : list ascii :=
  rev (lstrip_chars (rev l)).

(** [s.strip()] *)
Definition strip (s : string) : string :=
  string_of_list_ascii (rstrip_chars (lstrip_chars (list_ascii_of_string s))).

Definition lower_char (c : ascii) : ascii :=
  let n := nat_of_ascii c in
  if (65 <=? n) && (n <=? 90) then ascii_of_nat (n + 32) else c.

(** [s.lower()] *)
Fixpoint lower (s : string) : string :=
  match s with
  | EmptyString => EmptyString
  | String c s' => String (lower_char c) (lower s')
  end.

(** [s.startswith(p)] *)
Definition startswith (s p : string) : bool := String.prefix p s.

(** [bool(s)]: a string is true when it is not empty. *)
Definition truthy (s : string) : bool :=
  match s with EmptyString => false | _ => true end.


(** [sorted(...)] on strings: insertion sort by code points. *)
Fixpoint insert_sorted (x : string) (l : list string) : list string :=
  match l with
  | [] => [x]
  | y :: l' => if String.leb x y then x :: l else y :: insert_sorted x l'
  end.

Definition sorted (l : list string) : list string :=
  fold_right insert_sorted [] l.

(** [set(...)]: the elements without repetition. *)
Definition set_of (l : list string) : list string := nodup string_dec l.

End PyStr.

(** ** Exceptions *)

(** What the editor needs to know of a raised exception: its class name,
    whether the class derives from [Exception] (as opposed to deriving from
    [BaseException] only, like [SystemExit] and [KeyboardInterrupt]), and
    [str(exc)]. *)
Record py_exception := mkExc {
  exc_class : string;
  exc_is_Exception : bool;
  exc_str : string
}.

Definition IndexError : py_exception :=
  mkExc "IndexError" true "tuple index out of range".

(** ** Static tables *)

(** [keyword.kwlist] of CPython 3.7 to 3.13. *)
Definition kwlist : list string :=
  [ "False"; "None"; "True"; "and"; "as"; "assert"; "async"; "await";
    "break"; "class"; "continue"; "def"; "del"; "elif"; "else"; "except";
    "finally"; "for"; "from"; "global"; "if"; "import"; "in"; "is";
    "lambda"; "nonlocal"; "not"; "or"; "pass"; "raise"; "return"; "try";
    "while"; "with"; "yield" ].

Definition AUTOCOMPLETE_SUGGESTIONS : list string :=
  PyStr.sorted
    (PyStr.set_of
       (kwlist ++
        [ "print"; "input"; "range"; "len"; "enumerate"; "list"; "dict";
          "tuple"; "set"; "int"; "float"; "str"; "open"; "with"; "for";
          "while"; "def"; "class"; "import"; "from" ])).

Record QuizQuestion := mkQuestion {
  prompt : string;
  answer : string;
  explanation : string
}.

Definition QUIZ_QUESTIONS : list QuizQuestion :=
  [ mkQuestion "What keyword starts a function definition?"
               "def"
               "Functions begin with the `def` keyword followed by the name.";
    mkQuestion "Which built-in converts text to an integer?"
               "int"
               "`int(value)` parses a string or number into an integer.";
    mkQuestion "What statement lets you loop while a condition is true?"
               "while"
               "Use `while condition:` to run a block until the condition fails." ].

(** [CODE_EXAMPLES], each text after [textwrap.dedent(...).strip()]. *)
Definition CODE_EXAMPLES : list (string * string) :=
  [ ("Hello", "print('Hello, Python adventurer!')");
    ("FizzBuzz",
"for number in range(1, 21):
    if number % 15 == 0:
        print('FizzBuzz')
    elif number % 3 == 0:
        print('Fizz')
    elif number % 5 == 0:
        print('Buzz')
    else:
        print(number)");
    ("Guess",
"import random

secret = random.randint(1, 10)
while True:
    guess = int(input('Guess between 1 and 10: '))
    if guess == secret:
        print('You guessed it!')
        break
    print('Too high!' if guess > secret else 'Too low!')") ].

(** [d.get(key)] on a table written as a list of pairs. *)
Fixpoint dict_get {A : Type} (d : list (string * A)) (key : string) : option A :=
  match d with
  | [] => None
  | (k, v) :: d' => if String.eqb k key then Some v else dict_get d' key
  end.

(** ** Searching the text widget: [Text.search(r"\m<kw>\M", start, stopindex=END, regexp=True)] *)

Module TkSearch.

(** Tcl's word characters: letters, digits and the underscore. *)
Definition is_word_char (c : ascii) : bool :=
  let n := nat_of_ascii c in
  ((48 <=? n) && (n <=? 57)) || ((65 <=? n) && (n <=? 90)) ||
  ((97 <=? n) && (n <=? 122)) || (n =? 95).

(** [\m] holds where a word begins: no word character before, a word
    character after.  [prev = None] is the place where the matcher was
    started: Tk hands it the rest of the line from the start index, so
    nothing is before that place. *)
Definition at_word_start (prev : option ascii) (rest : list ascii) : bool :=
  match prev with None => true | Some c => negb (is_word_char c) end &&
  match rest with c :: _ => is_word_char c | [] => false end.

(** [\M] holds where a word ends: a word character before, none after. *)
Definition at_word_end (prev : option ascii) (rest : list ascii) : bool :=
  match prev with None => false | Some c => is_word_char c end &&
  match rest with c :: _ => negb (is_word_char c) | [] => true end.

(** The literal part of the pattern: consumes [kw], remembers the last
    character read. *)
Fixpoint match_literal (kw : list ascii) (prev : option ascii) (rest : list ascii)
  : option (option ascii * list ascii) :=
  match kw with
  | [] => Some (prev, rest)
  | k :: kw' =>
      match rest with
      | c :: rest' => if Ascii.eqb k c then match_literal kw' (Some c) rest' else None
      | [] => None
      end
  end.

(** Does [\m kw \M] match exactly here? *)
Definition matches_here (kw : list ascii) (prev : option ascii) (rest : list ascii) : bool :=
  at_word_start prev rest &&
  match match_literal kw prev rest with
  | Some (p, r) => at_word_end p r
  | None => false
  end.

(** Leftmost match in [rest]: the number of characters before it. *)
Fixpoint regex_search (kw : list ascii) (prev : option ascii) (rest : list ascii) : option nat :=
  if matches_here kw prev rest then Some 0
  else match rest with
       | [] => None
       | c :: rest' => option_map S (regex_search kw (Some c) rest')
       end.

(** The search from position [start] to the end of the buffer, without
    wrapping around ([stopindex=END]): the position of the first match, or
    [None] where Tk returns the empty string. *)
Definition search (kw : list ascii) (content : list ascii) (start : nat) : option nat :=
  option_map (Nat.add start) (regex_search kw None (skipn start content)).

End TkSearch.

(** A tagged range of the buffer: the positions of its first character and
    of the character after its last one. *)
Definition span : Type := nat * nat.

(** The body of [for kw in keyword.kwlist] in [_highlight_syntax]: the
    [while True] loop for one keyword, from position [start], listing the
    ranges given to [tag_add] in order.  One unit of [fuel] is one turn of the
    loop; [None] means the fuel ran out before the loop reached its [break]. *)
Fixpoint keyword_loop (fuel : nat) (kw : list ascii) (content : list ascii) (start : nat)
  : option (list span) :=
  match fuel with
  | O => None
  | S fuel' =>
      match TkSearch.search kw content start with
      | None => Some []
      | Some found =>
          let end_ := found + length kw in
          option_map (cons (found, end_)) (keyword_loop fuel' kw content end_)
      end
  end.

(** The loop for one keyword from ["1.0"]. *)
Definition keyword_spans (kw : string) (content : string) : option (list span) :=
  let text := list_ascii_of_string content in
  keyword_loop (S (length text)) (list_ascii_of_string kw) text 0.

(** The loops for all keywords, one after the other. *)
Fixpoint keyword_pass (kws : list string) (content : string) : option (list span) :=
  match kws with
  | [] => Some []
  | kw :: kws' =>
      match keyword_spans kw content, keyword_pass kws' content with
      | Some here, Some later => Some (here ++ later)
      | _, _ => None
      end
  end.

(** ** Files *)

Module Files.

(** The platform decides [os.linesep]. *)
Inductive platform := Posix | Windows.

Definition linesep (p : platform) : string :=
  match p with
  | Posix => PyStr.nl
  | Windows => (PyStr.cr ++ PyStr.nl)%string
  end.

Definition is_lf (c : ascii) : bool := nat_of_ascii c =? 10.
Definition is_cr (c : ascii) : bool := nat_of_ascii c =? 13.

(** Writing in text mode turns every line feed into [os.linesep]. *)
Fixpoint newlines_out (sep : string) (s : string) : string :=
  match s with
  | EmptyString => EmptyString
  | String c s' =>
      if is_lf c then (sep ++ newlines_out sep s')%string
      else String c (newlines_out sep s')
  end.

(** Reading in text mode turns CR LF and a lone CR into a line feed. *)
Fixpoint newlines_in (s : string) : string :=
  match s with
  | EmptyString => EmptyString
  | String c s' =>
      if is_cr c then
        match s' with
        | String c' s'' =>
            if is_lf c' then String c' (newlines_in s'')
            else String (ascii_of_nat 10) (newlines_in s')
        | EmptyString => PyStr.nl
        end
      else String c (newlines_in s')
  end.

Definition in_range (lo hi : nat) (c : ascii) : bool :=
  (lo <=? nat_of_ascii c) && (nat_of_ascii c <=? hi).

(** Is the byte sequence well-formed UTF-8?  (What [read_text] accepts.) *)
Fixpoint utf8_ok (s : string) : bool :=
  match s with
  | EmptyString => true
  | String c0 s1 =>
      if in_range 0 127 c0 then utf8_ok s1
      else if in_range 194 223 c0 then
        match s1 with
        | String c1 s2 => in_range 128 191 c1 && utf8_ok s2
        | _ => false
        end
      else if in_range 224 239 c0 then
        match s1 with
        | String c1 (String c2 s3) =>
            (if in_range 224 224 c0 then in_range 160 191 c1
             else if in_range 237 237 c0 then in_range 128 159 c1
             else in_range 128 191 c1)
            && in_range 128 191 c2 && utf8_ok s3
        | _ => false
        end
      else if in_range 240 244 c0 then
        match s1 with
        | String c1 (String c2 (String c3 s4)) =>
            (if in_range 240 240 c0 then in_range 144 191 c1
             else if in_range 244 244 c0 then in_range 128 143 c1
             else in_range 128 191 c1)
            && in_range 128 191 c2 && in_range 128 191 c3 && utf8_ok s4
        | _ => false
        end
      else false
  end.

(** Is the text free of carriage returns? *)
Fixpoint no_cr (s : string) : bool :=
  match s with
  | EmptyString => true
  | String c s' => negb (is_cr c) && no_cr s'
  end.

(** The file system: what is stored under a path, if anything. *)
Definition fs : Type := string -> option string.

(** [Path(path).write_text(data, encoding="utf8")] *)
Definition write_text (os : platform) (path data : string) (files : fs) : fs :=
  fun q => if String.eqb q path then Some (newlines_out (linesep os) data) else files q.

(** [Path(path).read_text(encoding="utf8")]: the text, or the exception of
    a missing file or of bytes that are not UTF-8 (its message shortened). *)
Definition read_text (path : string) (files : fs) : string + py_exception :=
  match files path with
  | None =>
      inr (mkExc "FileNotFoundError" true
             ("[Errno 2] No such file or directory: '" ++ path ++ "'"))
  | Some bytes =>
      if utf8_ok bytes then inl (newlines_in bytes)
      else inr (mkExc "UnicodeDecodeError" true "'utf-8' codec can't decode bytes")
  end.

End Files.

(** ** The host interpreter *)

(** What one call [exec(code, {"__name__": "__main__"}, local_env)] under
    [redirect_stdout] and [redirect_stderr] leaves behind when it comes back:
    the text written to the two streams, and the exception it ended with, if
    any.  The record is about programs that come back, leave the two
    [StringIO] buffers open and raise exceptions whose [str] can be taken. *)
Record exec_outcome := mkOutcome {
  written_stdout : string;
  written_stderr : string;
  raised : option py_exception
}.

(** A stand-in for the interpreter on a fragment of Python, enough to run the
    programs used as examples below.  A program of the fragment is a sequence
    of lines, each one of
    - [print('text')],
    - [raise Name('text')] for a few built-in exception classes,
    - [import sys] and [sys.stderr.write('text')],
    - the empty line,
    where [text] has no quote and no backslash. *)
Module Fragment.

Inductive stmt :=
| Print (text : string)
| Raise (cls : string) (is_Exception : bool) (text : string)
| ImportSys
| WriteStderr (text : string)
| Blank.

Definition quote : ascii := ascii_of_nat 39.
Definition backslash : ascii := ascii_of_nat 92.

Fixpoint split_lines (s : string) : list string :=
  match s with
  | EmptyString => [EmptyString]
  | String c s' =>
      match split_lines s' with
      | l :: ls => if Files.is_lf c then EmptyString :: l :: ls else String c l :: ls
      | [] => []
      end
  end.

Fixpoint strip_prefix (p s : string) : option string :=
  match p with
  | EmptyString => Some s
  | String a p' =>
      match s with
      | String b s' => if Ascii.eqb a b then strip_prefix p' s' else None
      | EmptyString => None
      end
  end.

(** The text up to the closing quote, and what follows the quote. *)
Fixpoint read_literal (s : string) : option (string * string) :=
  match s with
  | EmptyString => None
  | String c s' =>
      if Ascii.eqb c quote then Some (EmptyString, s')
      else if Ascii.eqb c backslash then None
      else match read_literal s' with
           | Some (lit, rest) => Some (String c lit, rest)
           | None => None
           end
  end.

(** [head('text')] exactly. *)
Definition call_with_literal (head line : string) : option string :=
  match strip_prefix (head ++ "('") line with
  | Some rest =>
      match read_literal rest with
      | Some (lit, after) => if String.eqb after ")" then Some lit else None
      | None => None
      end
  | None => None
  end.

Definition exception_classes : list (string * bool) :=
  [ ("Exception", true); ("ValueError", true); ("RuntimeError", true);
    ("SystemExit", false); ("KeyboardInterrupt", false) ].

Fixpoint parse_raise (classes : list (string * bool)) (line : string) : option stmt :=
  match classes with
  | [] => None
  | (cls, is_exc) :: classes' =>
      match call_with_literal ("raise " ++ cls) line with
      | Some lit => Some (Raise cls is_exc lit)
      | None => parse_raise classes' line
      end
  end.

Definition parse_line (line : string) : option stmt :=
  if String.eqb line "" then Some Blank
  else if String.eqb line "import sys" then Some ImportSys
  else match call_with_literal "print" line with
       | Some lit => Some (Print lit)
       | None =>
           match call_with_literal "sys.stderr.write" line with
           | Some lit => Some (WriteStderr lit)
           | None => parse_raise exception_classes line
           end
       end.

Fixpoint parse_lines (lines : list string) : option (list stmt) :=
  match lines with
  | [] => Some []
  | l :: ls =>
      match parse_line l, parse_lines ls with
      | Some st, Some sts => Some (st :: sts)
      | _, _ => None
      end
  end.

(** Running the statements in order; [sys] tells whether the name [sys] is
    bound yet. *)
Fixpoint run (prog : list stmt) (sys : bool) (out err : string) : exec_outcome :=
  match prog with
  | [] => mkOutcome out err None
  | Print text :: prog' => run prog' sys (out ++ text ++ PyStr.nl)%string err
  | Raise cls is_exc text :: _ => mkOutcome out err (Some (mkExc cls is_exc text))
  | ImportSys :: prog' => run prog' true out err
  | WriteStderr text :: prog' =>
      if sys then run prog' sys out (err ++ text)%string
      else mkOutcome out err (Some (mkExc "NameError" true "name 'sys' is not defined"))
  | Blank :: prog' => run prog' sys out err
  end.

(** The outcome of a program of the fragment; [None] for any other text. *)
Definition exec_fragment (code : string) : option exec_outcome :=
  match parse_lines (split_lines code) with
  | Some prog => Some (run prog false "" "")
  | None => None
  end.

(** The stand-in as a total interpreter: it refuses a text outside the
    fragment as a syntax error, where CPython accepts more. *)
Definition exec (code : string) : exec_outcome :=
  match exec_fragment code with
  | Some o => o
  | None => mkOutcome "" "" (Some (mkExc "SyntaxError" true "invalid syntax"))
  end.

End Fragment.

(** ** The editor *)

(** What [root.after] can be asked to call later. *)
Inductive callback := HighlightSyntax | ShowQuizQuestion.

(** What a Tk answers when it cannot compile the pattern of a search. *)
Definition TclError : py_exception :=
  mkExc "TclError" true
    "couldn't compile regular expression pattern: invalid backreference number".

(** The attributes of [PythonLearningEditor] and the contents of its widgets,
    with what the methods touch of the outside: the files, and the timers and
    windows of Tk.

    [string_search_error] is the exception [Text.search] raises for the
    pattern of string literals in [_highlight_syntax], if it raises one.  The
    pattern refers back ([\2]) to a group that stands inside a lookahead;
    Tcl's regular expressions take parentheses inside a lookahead as
    non-capturing, so a Tcl that follows its manual refuses the pattern
    ([Some TclError]).  Nothing below depends on which it is. *)
Record editor := mkEditor {
  os : Files.platform;
  files : Files.fs;
  string_search_error : option py_exception;
  (* self.text: its content [get("1.0", "end-1c")], its modified flag, the
     ranges under the tag "keyword" *)
  text : string;
  modified : bool;
  keyword_tags : list span;
  file_path : option string;
  (* self.console *)
  console : string;
  (* the quiz *)
  _quiz_index : nat;
  quiz_prompt : string;
  quiz_entry : string;
  quiz_feedback : string;
  (* the handle of the pending highlight pass, and Tk's pending timers with
     the number the next handle gets *)
  _after_id : option nat;
  timers : list (nat * callback);
  next_timer : nat;
  (* the autocomplete popup: the attribute, the items of its tree, and the
     Toplevel windows that exist *)
  _autocomplete_window : option nat;
  _autocomplete_list : option (list string);
  windows : list nat;
  next_window : nat
}.

Definition set_files (v : Files.fs) (s : editor) : editor :=
  mkEditor (os s) v (string_search_error s) (text s) (modified s)
    (keyword_tags s) (file_path s) (console s) (_quiz_index s)
    (quiz_prompt s) (quiz_entry s) (quiz_feedback s) (_after_id s)
    (timers s) (next_timer s) (_autocomplete_window s)
    (_autocomplete_list s) (windows s) (next_window s).

Definition set_text (v : string) (s : editor) : editor :=
  mkEditor (os s) (files s) (string_search_error s) v (modified s)
    (keyword_tags s) (file_path s) (console s) (_quiz_index s)
    (quiz_prompt s) (quiz_entry s) (quiz_feedback s) (_after_id s)
    (timers s) (next_timer s) (_autocomplete_window s)
    (_autocomplete_list s) (windows s) (next_window s).

Definition set_modified (v : bool) (s : editor) : editor :=
  mkEditor (os s) (files s) (string_search_error s) (text s) v
    (keyword_tags s) (file_path s) (console s) (_quiz_index s)
    (quiz_prompt s) (quiz_entry s) (quiz_feedback s) (_after_id s)
    (timers s) (next_timer s) (_autocomplete_window s)
    (_autocomplete_list s) (windows s) (next_window s).

Definition set_keyword_tags (v : list span) (s : editor) : editor :=
  mkEditor (os s) (files s) (string_search_error s) (text s) (modified s) v
    (file_path s) (console s) (_quiz_index s) (quiz_prompt s) (quiz_entry s)
    (quiz_feedback s) (_after_id s) (timers s) (next_timer s)
    (_autocomplete_window s) (_autocomplete_list s) (windows s)
    (next_window s).

Definition set_file_path (v : option string) (s : editor) : editor :=
  mkEditor (os s) (files s) (string_search_error s) (text s) (modified s)
    (keyword_tags s) v (console s) (_quiz_index s) (quiz_prompt s)
    (quiz_entry s) (quiz_feedback s) (_after_id s) (timers s) (next_timer s)
    (_autocomplete_window s) (_autocomplete_list s) (windows s)
    (next_window s).

Definition set_console (v : string) (s : editor) : editor :=
  mkEditor (os s) (files s) (string_search_error s) (text s) (modified s)
    (keyword_tags s) (file_path s) v (_quiz_index s) (quiz_prompt s)
    (quiz_entry s) (quiz_feedback s) (_after_id s) (timers s) (next_timer s)
    (_autocomplete_window s) (_autocomplete_list s) (windows s)
    (next_window s).

Definition set_quiz_index (v : nat) (s : editor) : editor :=
  mkEditor (os s) (files s) (string_search_error s) (text s) (modified s)
    (keyword_tags s) (file_path s) (console s) v (quiz_prompt s)
    (quiz_entry s) (quiz_feedback s) (_after_id s) (timers s) (next_timer s)
    (_autocomplete_window s) (_autocomplete_list s) (windows s)
    (next_window s).

Definition set_quiz_prompt (v : string) (s : editor) : editor :=
  mkEditor (os s) (files s) (string_search_error s) (text s) (modified s)
    (keyword_tags s) (file_path s) (console s) (_quiz_index s) v
    (quiz_entry s) (quiz_feedback s) (_after_id s) (timers s) (next_timer s)
    (_autocomplete_window s) (_autocomplete_list s) (windows s)
    (next_window s).

Definition set_quiz_entry (v : string) (s : editor) : editor :=
  mkEditor (os s) (files s) (string_search_error s) (text s) (modified s)
    (keyword_tags s) (file_path s) (console s) (_quiz_index s)
    (quiz_prompt s) v (quiz_feedback s) (_after_id s) (timers s)
    (next_timer s) (_autocomplete_window s) (_autocomplete_list s)
    (windows s) (next_window s).

Definition set_quiz_feedback (v : string) (s : editor) : editor :=
  mkEditor (os s) (files s) (string_search_error s) (text s) (modified s)
    (keyword_tags s) (file_path s) (console s) (_quiz_index s)
    (quiz_prompt s) (quiz_entry s) v (_after_id s) (timers s) (next_timer s)
    (_autocomplete_window s) (_autocomplete_list s) (windows s)
    (next_window s).

Definition set_after_id (v : option nat) (s : editor) : editor :=
  mkEditor (os s) (files s) (string_search_error s) (text s) (modified s)
    (keyword_tags s) (file_path s) (console s) (_quiz_index s)
    (quiz_prompt s) (quiz_entry s) (quiz_feedback s) v (timers s)
    (next_timer s) (_autocomplete_window s) (_autocomplete_list s)
    (windows s) (next_window s).

Definition set_timers (v : list (nat * callback)) (s : editor) : editor :=
  mkEditor (os s) (files s) (string_search_error s) (text s) (modified s)
    (keyword_tags s) (file_path s) (console s) (_quiz_index s)
    (quiz_prompt s) (quiz_entry s) (quiz_feedback s) (_after_id s) v
    (next_timer s) (_autocomplete_window s) (_autocomplete_list s)
    (windows s) (next_window s).

Definition set_next_timer (v : nat) (s : editor) : editor :=
  mkEditor (os s) (files s) (string_search_error s) (text s) (modified s)
    (keyword_tags s) (file_path s) (console s) (_quiz_index s)
    (quiz_prompt s) (quiz_entry s) (quiz_feedback s) (_after_id s)
    (timers s) v (_autocomplete_window s) (_autocomplete_list s) (windows s)
    (next_window s).

Definition set_autocomplete_window (v : option nat) (s : editor) : editor :=
  mkEditor (os s) (files s) (string_search_error s) (text s) (modified s)
    (keyword_tags s) (file_path s) (console s) (_quiz_index s)
    (quiz_prompt s) (quiz_entry s) (quiz_feedback s) (_after_id s)
    (timers s) (next_timer s) v (_autocomplete_list s) (windows s)
    (next_window s).

Definition set_autocomplete_list (v : option (list string)) (s : editor) : editor :=
  mkEditor (os s) (files s) (string_search_error s) (text s) (modified s)
    (keyword_tags s) (file_path s) (console s) (_quiz_index s)
    (quiz_prompt s) (quiz_entry s) (quiz_feedback s) (_after_id s)
    (timers s) (next_timer s) (_autocomplete_window s) v (windows s)
    (next_window s).

Definition set_windows (v : list nat) (s : editor) : editor :=
  mkEditor (os s) (files s) (string_search_error s) (text s) (modified s)
    (keyword_tags s) (file_path s) (console s) (_quiz_index s)
    (quiz_prompt s) (quiz_entry s) (quiz_feedback s) (_after_id s)
    (timers s) (next_timer s) (_autocomplete_window s)
    (_autocomplete_list s) v (next_window s).

Definition set_next_window (v : nat) (s : editor) : editor :=
  mkEditor (os s) (files s) (string_search_error s) (text s) (modified s)
    (keyword_tags s) (file_path s) (console s) (_quiz_index s)
    (quiz_prompt s) (quiz_entry s) (quiz_feedback s) (_after_id s)
    (timers s) (next_timer s) (_autocomplete_window s)
    (_autocomplete_list s) (windows s) v.

(** *** Tk primitives *)

(** [root.after(ms, callback)]: a new pending timer; its handle is returned. *)
Definition after (cb : callback) (s : editor) : editor * nat :=
  (set_next_timer (S (next_timer s))
     (set_timers (timers s ++ [(next_timer s, cb)]) s),
   next_timer s).

(** [root.after_cancel(id)] *)
Definition after_cancel (id : nat) (s : editor) : editor :=
  set_timers (filter (fun t => negb (fst t =? id)) (timers s)) s.

(** [window.destroy()] *)
Definition destroy (w : nat) (s : editor) : editor :=
  set_windows (filter (fun v => negb (v =? w)) (windows s)) s.

(** [self.text.delete("1.0", END)]: Tk raises the modified flag on a change
    of the content. *)
Definition text_delete_all (s : editor) : editor :=
  set_modified true (set_text "" s).

(** [self.text.insert("1.0", chars)] into the emptied buffer. *)
Definition text_insert (chars : string) (s : editor) : editor :=
  set_modified true (set_text (chars ++ text s)%string s).

(** [self.console.insert(END, chars)] *)
Definition console_insert (chars : string) (s : editor) : editor :=
  set_console (console s ++ chars)%string s.

(** *** Event helpers and syntax colour *)

(** [_highlight_syntax]: the handle is forgotten, the tag is deleted and the
    keyword ranges are added again; the loops of the keywords always reach
    their [break], see [keyword_pass_total].  The pass for comments and the
    pass for string literals fill two other tags, which are not in the
    record; an exception of the search for string literals leaves the method
    after the other passes. *)
Definition _highlight_syntax (s : editor) : editor * option py_exception :=
  let s := set_after_id None s in
  let s := set_keyword_tags [] s in
  let s := match keyword_pass kwlist (text s) with
           | Some tags => set_keyword_tags tags s
           | None => s
           end in
  (s, string_search_error s).

(** [_on_text_change]; a handle is a non-empty string, so [if self._after_id]
    asks whether the attribute is not [None]. *)
Definition _on_text_change (s : editor) : editor :=
  let s := match _after_id s with
           | Some id => after_cancel id s
           | None => s
           end in
  let (s, id) := after HighlightSyntax s in
  set_after_id (Some id) s.

(** [_insert_example]; [selection] is the first selected label of the
    examples list, if any. *)
Definition _insert_example (selection : option string) (s : editor)
  : editor * option py_exception :=
  match selection with
  | None => (s, None)
  | Some label =>
      match dict_get CODE_EXAMPLES label with
      | None => (s, None)
      | Some code =>
          if negb (PyStr.truthy code) then (s, None)
          else _highlight_syntax (text_insert code (text_delete_all s))
      end
  end.

(** *** Quiz *)

Definition _show_quiz_question (s : editor) : editor * option py_exception :=
  match nth_error QUIZ_QUESTIONS (_quiz_index s) with
  | None => (s, Some IndexError)
  | Some question =>
      let s := set_quiz_prompt (prompt question) s in
      let s := set_quiz_entry "" s in
      (set_quiz_feedback "" s, None)
  end.

Definition _check_quiz (s : editor) : editor * option py_exception :=
  match nth_error QUIZ_QUESTIONS (_quiz_index s) with
  | None => (s, Some IndexError)
  | Some question =>
      let answer_ := PyStr.lower (PyStr.strip (quiz_entry s)) in
      let s :=
        if String.eqb answer_ (PyStr.lower (answer question)) then
          let s := set_quiz_feedback ("✅ Correct! " ++ explanation question)%string s in
          set_quiz_index ((_quiz_index s + 1) mod length QUIZ_QUESTIONS) s
        else
          set_quiz_feedback ("❌ Not quite. " ++ explanation question)%string s in
      (fst (after ShowQuizQuestion s), None)
  end.

(** *** Autocomplete *)

(** [[item for item in self.AUTOCOMPLETE_SUGGESTIONS if item.startswith(word)]] *)
Definition autocomplete_matches (word : string) : list string :=
  filter (fun item => PyStr.startswith item word) AUTOCOMPLETE_SUGGESTIONS.

(** [_show_autocomplete]; [word] is what [_current_word()] returns and [bbox]
    tells whether [self.text.bbox("insert")] gives a box.  A window object is
    always true, so [if self._autocomplete_window] asks whether the attribute
    is not [None]. *)
Definition _show_autocomplete (word : string) (bbox : bool) (s : editor)
  : editor * string :=
  let s := match _autocomplete_window s with
           | Some w => destroy w s
           | None => s
           end in
  let matches := autocomplete_matches word in
  match matches with
  | [] => (s, "break")
  | _ :: _ =>
      if negb bbox then (s, "break")
      else
        let window := next_window s in
        let s := set_next_window (S window) (set_windows (windows s ++ [window]) s) in
        let s := set_autocomplete_window (Some window) s in
        (set_autocomplete_list (Some matches) s, "break")
  end.

Definition _close_autocomplete (s : editor) : editor :=
  let s := match _autocomplete_window s with
           | Some w => set_autocomplete_window None (destroy w s)
           | None => s
           end in
  set_autocomplete_list None s.

(** *** File operations

    [answer] is what the user chooses in [messagebox.askyesnocancel]
    ([None] for cancel), [save_name] and [open_name] what the file dialogs
    return (the empty string when the user cancels them). *)

(** Lines 517 to 519 of [save_file], for the path [path]. *)
Definition save_file_to (path : string) (s : editor) : editor :=
  let s := set_files (Files.write_text (os s) path (text s) (files s)) s in
  set_modified false s.

(** [save_file_as]: its call of [save_file] finds the path just set. *)
Definition save_file_as (save_name : string) (s : editor) : editor :=
  if PyStr.truthy save_name then
    save_file_to save_name (set_file_path (Some save_name) s)
  else s.

Definition save_file (save_name : string) (s : editor) : editor :=
  match file_path s with
  | None => save_file_as save_name s
  | Some path => save_file_to path s
  end.

Definition _confirm_unsaved_changes (answer : option bool) (save_name : string)
  (s : editor) : editor * bool :=
  if modified s then
    match answer with
    | None => (s, false)
    | Some true => (set_modified false (save_file save_name s), true)
    | Some false => (set_modified false s, true)
    end
  else (set_modified false s, true).

Definition new_file (answer : option bool) (save_name : string) (s : editor) : editor :=
  let (s, proceed) := _confirm_unsaved_changes answer save_name s in
  if proceed then
    let s := text_delete_all s in
    let s := set_file_path None s in
    set_modified false s
  else s.

(** [open_file]; [read_text] is evaluated after the buffer was emptied, and
    an exception of it leaves the method there; an exception of the highlight
    pass leaves it before the modified flag is cleared. *)
Definition open_file (answer : option bool) (save_name open_name : string)
  (s : editor) : editor * option py_exception :=
  let (s, proceed) := _confirm_unsaved_changes answer save_name s in
  if negb proceed then (s, None)
  else if PyStr.truthy open_name then
    let s := text_delete_all s in
    match Files.read_text open_name (files s) with
    | inr exc => (s, Some exc)
    | inl data =>
        let s := text_insert data s in
        let s := set_file_path (Some open_name) s in
        match _highlight_syntax s with
        | (s, Some exc) => (s, Some exc)
        | (s, None) => (set_modified false s, None)
        end
    end
  else (s, None).

(** *** Console *)

Definition clear_console (s : editor) : editor := set_console "" s.

Section Engine.

(** The host interpreter: what [exec] does with a program text. *)
Variable exec : string -> exec_outcome.

(** [_execute_code]: the new state, and the exception that leaves the
    method, if any.  [except Exception] takes the exceptions whose class
    derives from [Exception]; the [finally] block runs in every case. *)
Definition _execute_code (code : string) (s : editor) : editor * option py_exception :=
  let o := exec code in
  let console_output := written_stdout o in
  let console_error := written_stderr o in
  let '(console_error, propagated) :=
    match raised o with
    | None => (console_error, None)
    | Some exc =>
        if exc_is_Exception exc then
          ((console_error ++ "Error: " ++ exc_str exc ++ PyStr.nl)%string, None)
        else (console_error, Some exc)
    end in
  let output := console_output in
  let errors := console_error in
  let s := if PyStr.truthy output then console_insert output s else s in
  let s := if PyStr.truthy errors then console_insert errors s else s in
  (s, propagated).

Definition run_code (s : editor) : editor * option py_exception :=
  _execute_code (text s) s.

(** [run_selection]; [selection] is the selected text, if there is a
    selection. *)
Definition run_selection (selection : option string) (s : editor)
  : editor * option py_exception :=
  match selection with
  | None => (s, None)
  | Some code => _execute_code code s
  end.

End Engine.

(** *** Bindings of the text widget *)




(** *** The event loop *)

(** One callback run by the event loop, with what the user brings to it. *)
Inductive action :=
| Edit (content : string)             (* the user changes the buffer *)
| OnTextChange                        (* _on_text_change *)
| TimerFires (id : nat)               (* Tk runs the pending timer [id] *)
| InsertExample (selection : option string)
| QuizType (entry : string)           (* the user fills the quiz entry *)
| CheckQuiz
| ShowAutocomplete (word : string) (bbox : bool)
| CloseAutocomplete
| NewFile (answer : option bool) (save_name : string)
| OpenFile (answer : option bool) (save_name open_name : string)
| SaveFile (save_name : string)
| SaveFileAs (save_name : string)
| ClearConsole
| RunCode
| RunSelection (selection : option string).

(** A timer that is due is taken from the pending ones and its callback is
    called; a handle that is not pending does nothing. *)
Definition fire (id : nat) (s : editor) : editor :=
  match find (fun t => fst t =? id) (timers s) with
  | None => s
  | Some (_, cb) =>
      let s := after_cancel id s in
      match cb with
      | HighlightSyntax => fst (_highlight_syntax s)
      | ShowQuizQuestion => fst (_show_quiz_question s)
      end
  end.

Section Loop.

Variable exec : string -> exec_outcome.

(** The state after one callback.  An exception that leaves a callback is
    reported by Tk and the loop goes on from the state reached. *)
Definition step (a : action) (s : editor) : editor :=
  match a with
  | Edit content => set_modified true (set_text content s)
  | OnTextChange => _on_text_change s
  | TimerFires id => fire id s
  | InsertExample selection => fst (_insert_example selection s)
  | QuizType entry => set_quiz_entry entry s
  | CheckQuiz => fst (_check_quiz s)
  | ShowAutocomplete word bbox => fst (_show_autocomplete word bbox s)
  | CloseAutocomplete => _close_autocomplete s
  | NewFile answer save_name => new_file answer save_name s
  | OpenFile answer save_name open_name => fst (open_file answer save_name open_name s)
  | SaveFile save_name => save_file save_name s
  | SaveFileAs save_name => save_file_as save_name s
  | ClearConsole => clear_console s
  | RunCode => fst (run_code exec s)
  | RunSelection selection => fst (run_selection exec selection s)
  end.

Definition run (actions : list action) (s : editor) : editor :=
  fold_left (fun s a => step a s) actions s.

End Loop.

(** The editor after [__init__] (with [_quiz_index = 0] and the first
    question shown by [_build_layout]) and the highlight pass of [run] on the
    empty buffer: the state in which the event loop starts.  (When that pass
    raises, [run] ends there, before [mainloop].) *)
Definition blank (os : Files.platform) (files : Files.fs)
  (string_search_error : option py_exception) : editor :=
  mkEditor os files string_search_error "" false [] None "" 0 "" "" "" None [] 0
    None None [] 0.

Definition initial (os : Files.platform) (files : Files.fs)
  (string_search_error : option py_exception) : editor :=
  fst (_highlight_syntax
         (fst (_show_quiz_question (blank os files string_search_error)))).

(** The pending timers of the highlight pass. *)
Definition highlight_timers (s : editor) : list (nat * callback) :=
  filter (fun t => match snd t with HighlightSyntax => true | _ => false end)
    (timers s).

(** The callbacks that may call [_highlight_syntax] themselves, not from its
    timer. *)
Definition calls_highlight_directly (a : action) : bool :=
  match a with
  | InsertExample _ | OpenFile _ _ _ => true
  | _ => false
  end.

(** The discipline of the single handle: handles are not reused, and a
    pending highlight timer is the one [_after_id] names. *)
Definition debounced (s : editor) : Prop :=
  NoDup (map fst (timers s)) /\
  (forall id cb, In (id, cb) (timers s) -> id < next_timer s) /\
  (forall id, In (id, HighlightSyntax) (timers s) -> _after_id s = Some id).

(** ** What the specification calls a whole-word occurrence *)

(** [kw] is written at position [i] of [content]. *)
Definition occurs_at (kw content : list ascii) (i : nat) : Prop :=
  firstn (length kw) (skipn i content) = kw.

(** No word character stands just before position [i]. *)
Definition boundary_before (content : list ascii) (i : nat) : Prop :=
  match i with
  | O => True
  | S j => forall c, nth_error content j = Some c -> TkSearch.is_word_char c = false
  end.

(** No word character stands at position [j]. *)
Definition boundary_after (content : list ascii) (j : nat) : Prop :=
  forall c, nth_error content j = Some c -> TkSearch.is_word_char c = false.

(** An occurrence of [kw] at [i] delimited by word boundaries. *)
Definition whole_word_at (kw content : list ascii) (i : nat) : Prop :=
  occurs_at kw content i /\ boundary_before content i /\
  boundary_after content (i + length kw).

Definition whole_word_occurrence (kw content : string) (i : nat) : Prop :=
  whole_word_at (list_ascii_of_string kw) (list_ascii_of_string content) i.

(** Three notions used to reason on the search. *)

(** The last character read once [kw] was consumed after [prev]. *)
Definition last_seen (prev : option ascii) (kw : list ascii) : option ascii :=
  fold_left (fun _ c => Some c) kw prev.

(** The character before offset [j] of [rest], for a matcher started on
    [rest] with [prev] before it. *)
Definition prev_k (prev : option ascii) (rest : list ascii) (j : nat) : option ascii :=
  match j with
  | O => prev
  | S j' => nth_error rest j'
  end.

(** The character before position [i] of the buffer. *)
Definition prev_of (content : list ascii) (i : nat) : option ascii :=
  prev_k None content i.

(** The shape of a keyword: not empty, made of word characters. *)
Definition keyword_like (kw : string) : bool :=
  PyStr.truthy kw && forallb TkSearch.is_word_char (list_ascii_of_string kw).

(** ** More of the editor: gutter, find dialog, comments, helper panel *)






(** The marks of [self.text] the find dialog works with: the insertion
    cursor and the selection. *)
Record marks := mkMarks {
  insert : nat;
  sel : option span
}.

Fixpoint starts_with (needle rest : list ascii) : bool :=
  match needle with
  | [] => true
  | a :: needle' =>
      match rest with
      | c :: rest' => Ascii.eqb a c && starts_with needle' rest'
      | [] => false
      end
  end.

(** An exact search: the number of characters before the first place of
    [rest] where [needle] is written. *)
Fixpoint exact_search (needle rest : list ascii) : option nat :=
  if starts_with needle rest then Some 0
  else match rest with
       | [] => None
       | _ :: rest' => option_map S (exact_search needle rest')
       end.

(** [find_next] of [_open_find_dialog], for the text [needle] of the entry:
    [Text.search(needle, index("insert"), stopindex=END)], then the selection
    and the cursor are set. *)
Definition find_next (needle content : string) (m : marks) : marks :=
  if negb (PyStr.truthy needle) then m
  else
    let text := list_ascii_of_string content in
    match option_map (Nat.add (insert m))
            (exact_search (list_ascii_of_string needle) (skipn (insert m) text)) with
    | Some start =>
        let end_ := start + String.length needle in
        mkMarks end_ (Some (start, end_))
    | None => m
    end.

Definition is_hash (c : ascii) : bool := nat_of_ascii c =? 35.

(** The number of characters before the first one of [rest] that satisfies
    [p]. *)
Fixpoint find_char (p : ascii -> bool) (rest : list ascii) : option nat :=
  match rest with
  | [] => None
  | c :: rest' => if p c then Some 0 else option_map S (find_char p rest')
  end.

(** The regexp search of the comment loop from [start], without wrapping
    around: the pattern is a [#], then any characters, then the end of the
    line; the dot stays on the line, so the match starts at the first [#]
    from [start] on. *)
Definition comment_search (content : list ascii) (start : nat) : option nat :=
  option_map (Nat.add start) (find_char is_hash (skipn start content)).

(** The index ["<line>.end"] of the line of position [pos]: the position of
    the line feed that ends it, or the end of the buffer. *)
Definition line_end (content : list ascii) (pos : nat) : nat :=
  match find_char Files.is_lf (skipn pos content) with
  | Some k => pos + k
  | None => length content
  end.

(** The second loop of [_highlight_syntax], from position [start]: the
    ranges it puts under the tag ["comment"]; fuel as for [keyword_loop]. *)
Fixpoint comment_loop (fuel : nat) (content : list ascii) (start : nat)
  : option (list span) :=
  match fuel with
  | O => None
  | S fuel' =>
      match comment_search content start with
      | None => Some []
      | Some found =>
          let line_end_ := line_end content found in
          option_map (cons (found, line_end_)) (comment_loop fuel' content line_end_)
      end
  end.

Definition comment_spans (content : string) : option (list span) :=
  let text := list_ascii_of_string content in
  comment_loop (S (length text)) text 0.

(** A position under a range of a list of ranges. *)
Definition covered (spans : list span) (p : nat) : Prop :=
  exists i j, In (i, j) spans /\ i <= p < j.

(** A [#] stands at position [q]. *)
Definition hash_at (content : list ascii) (q : nat) : Prop :=
  exists c, nth_error content q = Some c /\ is_hash c = true.

(** No line feed stands at the positions from [q] to [p]. *)
Definition no_lf_between (content : list ascii) (q p : nat) : Prop :=
  forall r c, q <= r <= p -> nth_error content r = Some c -> Files.is_lf c = false.

(** Position [p] stands on a line after a [#] of that line, or on it. *)
Definition after_hash (content : list ascii) (p : nat) : Prop :=
  p < length content /\
  exists q, q <= p /\ hash_at content q /\ no_lf_between content q p.

Definition KEYWORD_HELP : list (string * string) :=
  [ ("for", "Iterate over items in a sequence. Syntax: for item in sequence:");
    ("while", "Repeat a block while a condition remains True.");
    ("def", "Define a function. Use parentheses for parameters.");
    ("class", "Define a class that bundles data and behaviour.");
    ("with", "Context manager for managing resources, e.g. files.");
    ("print", "Display text or variables. Useful for debugging.");
    ("import", "Bring modules or objects into the current namespace.");
    ("list", "Mutable ordered collection. Use [] to define literals.");
    ("dict", "Mapping of keys to values. Literal syntax uses {key: value}.") ].

(** [_current_word]; [selection] is the selected text when there is a
    selection, [at_insert] the text Tk gives between the start and the end of
    the word at the cursor. *)
Definition _current_word (selection : option string) (at_insert : string) : string :=
  match selection with
  | Some chosen =>
      if PyStr.truthy chosen then PyStr.strip chosen else PyStr.strip at_insert
  | None => PyStr.strip at_insert
  end.

(** [_update_helper_panel]: the text it shows in the helper panel. *)
Definition _update_helper_panel (selection : option string) (at_insert : string)
  : string :=
  let word := _current_word selection at_insert in
  match dict_get KEYWORD_HELP word with
  | Some description => description
  | None => "Select a keyword to see a tip."
  end.


(** A text made of white space only. *)
Definition blank_text (s : string) : bool :=
  forallb PyStr.isspace (list_ascii_of_string s).

(** ** Notions for the properties of the event loop *)

(** At most one autocomplete popup exists, and it is the one the attribute
    names. *)
Definition one_popup (s : editor) : Prop :=
  windows s = [] \/
  exists w, windows s = [w] /\ _autocomplete_window s = Some w.

(** Handles of pending timers are below the number of the next handle. *)
Definition timers_fresh (s : editor) : Prop :=
  forall id cb, In (id, cb) (timers s) -> id < next_timer s.

(** The callbacks that may write a file: the two saves, the yes of the
    unsaved-changes prompt, and the user's program. *)
Definition may_write_files (a : action) : bool :=
  match a with
  | SaveFile _ | SaveFileAs _ | RunCode | RunSelection _ => true
  | NewFile (Some true) _ | OpenFile (Some true) _ _ => true
  | _ => false
  end.

Definition is_clear_console (a : action) : bool :=
  match a with ClearConsole => true | _ => false end.

(** Every string of the list is below all the strings after it. *)
Fixpoint ascending (l : list string) : bool :=
  match l with
  | [] => true
  | x :: l' => forallb (fun y => String.ltb x y) l' && ascending l'
  end.

(** * Properties *)

(** ** Strings *)

Lemma append_empty_r (s : string) : (s ++ "")%string = s.
Proof. induction s as [|c s IH]; simpl; [reflexivity | now rewrite IH]. Qed.

Lemma append_assoc (a b c : string) :
  ((a ++ b) ++ c)%string = (a ++ (b ++ c))%string.
Proof. induction a as [|x a IH]; simpl; [reflexivity | now rewrite IH]. Qed.

Lemma prefix_append (p r : string) : String.prefix p (p ++ r) = true.
Proof.
  induction p as [|c p IH]; simpl.
  - now destruct r.
  - destruct (ascii_dec c c) as [_|ne]; [exact IH | now elim ne].
Qed.


Lemma truthy_false_empty (s : string) : PyStr.truthy s = false -> s = "".
Proof. now destruct s. Qed.

(** ** Quiz *)


Lemma quiz_index_in_range (i : nat) :
  i < length QUIZ_QUESTIONS <-> exists q, nth_error QUIZ_QUESTIONS i = Some q.
Proof.
  split.
  - intros H. destruct (nth_error QUIZ_QUESTIONS i) as [q|] eqn:E.
    + now exists q.
    + apply nth_error_None in E. lia.
  - intros [q E]. apply nth_error_Some. congruence.
Qed.



(** ** The quiz index along the event loop *)

Arguments keyword_pass : simpl never.

(** Destructs the scrutinee of a [match] or [if] in the goal. *)
Ltac split_match :=
  match goal with
  | |- context [match ?x with _ => _ end] => destruct x eqn:?
  end.

(** Replaces a call of [_highlight_syntax] in the goal by its result, given
    by the lemma [eq]. *)
Ltac highlight_by eq :=
  match goal with
  | |- context [_highlight_syntax ?x] =>
      let tags := fresh "tags" in
      destruct (eq x) as [tags ->]
  end.

(** [_highlight_syntax] changes the handle and the keyword ranges only, and
    raises what the search for string literals raises. *)
Lemma highlight_syntax_eq (s : editor) :
  exists tags,
    _highlight_syntax s
    = (set_keyword_tags tags (set_after_id None s), string_search_error s).
Proof.
  unfold _highlight_syntax. cbn [text set_keyword_tags set_after_id].
  destruct (keyword_pass kwlist (text s)) as [tags|];
    [now exists tags | now exists []].
Qed.

Lemma highlight_syntax_quiz_index (s : editor) :
  _quiz_index (fst (_highlight_syntax s)) = _quiz_index s.
Proof. unfold _highlight_syntax. cbn [fst]. now split_match. Qed.

Lemma show_quiz_question_quiz_index (s : editor) :
  _quiz_index (fst (_show_quiz_question s)) = _quiz_index s.
Proof. unfold _show_quiz_question. now split_match. Qed.

Lemma confirm_unsaved_changes_quiz_index answer save_name (s : editor) :
  _quiz_index (fst (_confirm_unsaved_changes answer save_name s)) = _quiz_index s.
Proof.
  unfold _confirm_unsaved_changes, save_file, save_file_as, save_file_to.
  repeat split_match; reflexivity.
Qed.

Lemma execute_code_quiz_index exec code (s : editor) :
  _quiz_index (fst (_execute_code exec code s)) = _quiz_index s.
Proof.
  unfold _execute_code. repeat split_match; reflexivity.
Qed.

(** One callback leaves the index as it is or adds one to it modulo the
    number of questions. *)
Lemma step_quiz_index exec (a : action) (s : editor) :
  _quiz_index (step exec a s) = _quiz_index s \/
  _quiz_index (step exec a s) = (_quiz_index s + 1) mod length QUIZ_QUESTIONS.
Proof.
  destruct a; cbn [step].
  - now left.
  - left. unfold _on_text_change, after. now split_match.
  - left. unfold fire. repeat split_match; subst; try reflexivity.
    + now rewrite highlight_syntax_quiz_index.
    + now rewrite show_quiz_question_quiz_index.
  - left. unfold _insert_example. repeat split_match; try reflexivity.
    now rewrite highlight_syntax_quiz_index.
  - now left.
  - unfold _check_quiz, after. repeat split_match; cbn; auto.
  - left. unfold _show_autocomplete. repeat split_match; reflexivity.
  - left. unfold _close_autocomplete. now split_match.
  - left. unfold new_file.
    pose proof (confirm_unsaved_changes_quiz_index answer0 save_name s) as H.
    destruct (_confirm_unsaved_changes answer0 save_name s) as [s1 [|]]; exact H.
  - left. unfold open_file.
    pose proof (confirm_unsaved_changes_quiz_index answer0 save_name s) as H.
    destruct (_confirm_unsaved_changes answer0 save_name s) as [s1 [|]];
      cbn [negb fst] in *; [|exact H].
    destruct (PyStr.truthy open_name); [|exact H].
    destruct (Files.read_text open_name _) as [data|exc]; [|exact H].
    destruct (highlight_syntax_eq
                (set_file_path (Some open_name)
                   (text_insert data (text_delete_all s1)))) as [tags ->].
    cbn [string_search_error set_keyword_tags set_after_id set_file_path
           text_insert text_delete_all set_modified set_text].
    destruct (string_search_error s1); exact H.
  - left. unfold save_file, save_file_as, save_file_to. repeat split_match; reflexivity.
  - left. unfold save_file_as, save_file_to. now split_match.
  - now left.
  - left. apply execute_code_quiz_index.
  - left. unfold run_selection. split_match; [apply execute_code_quiz_index | reflexivity].
Qed.

Lemma run_app exec (xs ys : list action) (s : editor) :
  run exec (xs ++ ys) s = run exec ys (run exec xs s).
Proof. unfold run. apply fold_left_app. Qed.

(** C10.  The editor starts with index 0; a callback changes the index only
    by adding one modulo the number of questions; hence after any sequence of
    callbacks the index is below the number of questions, it names a question,
    and neither [_check_quiz] nor [_show_quiz_question] raises [IndexError]. *)
Theorem quiz_index_always_valid exec os files err :
  _quiz_index (initial os files err) = 0 /\
  (forall a s,
     _quiz_index (step exec a s) <> _quiz_index s ->
     _quiz_index (step exec a s) = (_quiz_index s + 1) mod length QUIZ_QUESTIONS) /\
  (forall actions,
     let s := run exec actions (initial os files err) in
     0 <= _quiz_index s < length QUIZ_QUESTIONS /\
     (exists q, nth_error QUIZ_QUESTIONS (_quiz_index s) = Some q) /\
     snd (_check_quiz s) = None /\
     snd (_show_quiz_question s) = None).
Proof.
  split; [reflexivity|]. split.
  - intros a s Hne. destruct (step_quiz_index exec a s) as [H|H]; [contradiction|exact H].
  - intros actions s.
    assert (Hlt : _quiz_index s < length QUIZ_QUESTIONS).
    { subst s. induction actions as [|a actions IH] using rev_ind.
      - unfold initial. cbn [run fold_left].
        rewrite highlight_syntax_quiz_index. cbn. lia.
      - rewrite run_app. cbn [run fold_left].
        destruct (step_quiz_index exec a (run exec actions (initial os files err))) as [H|H];
          unfold run in *; rewrite H; [exact IH|].
        apply Nat.mod_upper_bound. discriminate. }
    split; [lia|].
    destruct (proj1 (quiz_index_in_range _) Hlt) as [q Hq].
    split; [now exists q|].
    unfold _check_quiz, _show_quiz_question. rewrite Hq. split; reflexivity.
Qed.

(** ** The unsaved-changes gate *)

(** C4.  With the modified flag set, [new_file] answered by cancel returns
    the state it was given: the buffer, the backing path and everything else
    are as before. *)
Theorem new_file_cancel_changes_nothing (s : editor) (save_name : string) :
  modified s = true ->
  new_file None save_name s = s /\
  text (new_file None save_name s) = text s /\
  file_path (new_file None save_name s) = file_path s.
Proof.
  intros Hmod.
  assert (H : new_file None save_name s = s).
  { unfold new_file, _confirm_unsaved_changes. rewrite Hmod. reflexivity. }
  rewrite H. repeat split.
Qed.

Lemma new_file_cancel_changes_nothing_witness :
  let s := set_modified true (set_text "x = 1" (initial Files.Posix (fun _ => None) (Some TclError))) in
  text (new_file None "" s) = "x = 1" /\ file_path (new_file None "" s) = None.
Proof.
  intros s.
  destruct (new_file_cancel_changes_nothing s "" eq_refl) as (_ & Htext & Hpath).
  split; [exact Htext | exact Hpath].
Defined.

(** C5.  With the modified flag set and no backing path, answering yes to
    the prompt and then cancelling the save-as dialog (the empty file name)
    writes no file, yet the gate returns [True] with the flag cleared; so
    [new_file] empties the buffer and [open_file] replaces it by the text of
    the chosen file, and the files are what they were. *)
Theorem save_cancelled_still_proceeds (s : editor) :
  modified s = true ->
  file_path s = None ->
  let gate := _confirm_unsaved_changes (Some true) "" s in
  snd gate = true /\
  modified (fst gate) = false /\
  files (fst gate) = files s /\
  file_path (fst gate) = None /\
  text (new_file (Some true) "" s) = "" /\
  files (new_file (Some true) "" s) = files s /\
  (forall open_name data,
     PyStr.truthy open_name = true ->
     Files.read_text open_name (files s) = inl data ->
     text (fst (open_file (Some true) "" open_name s)) = data /\
     files (fst (open_file (Some true) "" open_name s)) = files s).
Proof.
  intros Hmod Hpath.
  unfold new_file, open_file, _confirm_unsaved_changes, save_file, save_file_as.
  rewrite Hmod, Hpath. cbn -[_highlight_syntax Files.read_text].
  do 6 (split; [first [reflexivity | exact Hpath]|]).
  intros open_name data Hname Hread. rewrite Hname, Hread.
  highlight_by highlight_syntax_eq. cbn.
  destruct (string_search_error s); cbn;
    (split; [apply append_empty_r | reflexivity]).
Qed.

Lemma save_cancelled_still_proceeds_witness :
  let s := set_modified true (set_text "x = 1" (initial Files.Posix (fun _ => None) (Some TclError))) in
  snd (_confirm_unsaved_changes (Some true) "" s) = true /\
  text (new_file (Some true) "" s) = "" /\
  files (new_file (Some true) "" s) "" = None.
Proof.
  intros s.
  destruct (save_cancelled_still_proceeds s eq_refl eq_refl)
    as (Hgo & _ & _ & _ & Htext & Hfiles & _).
  split; [exact Hgo|]. split; [exact Htext|]. now rewrite Hfiles.
Defined.

(** ** Files *)

(** Text without carriage returns comes back from a file as it was written,
    on both platforms. *)
Lemma newlines_roundtrip (os : Files.platform) (s : string) :
  Files.no_cr s = true ->
  Files.newlines_in (Files.newlines_out (Files.linesep os) s) = s.
Proof.
  induction s as [|c s IH]; [reflexivity|].
  cbn [Files.no_cr]. intros H. apply andb_prop in H as [Hc Hs].
  specialize (IH Hs). cbn [Files.newlines_out].
  destruct (Files.is_lf c) eqn:Elf.
  - assert (c = ascii_of_nat 10) as ->.
    { unfold Files.is_lf in Elf. apply Nat.eqb_eq in Elf.
      rewrite <- (ascii_nat_embedding c). now rewrite Elf. }
    destruct os; cbn in IH |- *; now rewrite IH.
  - cbn [Files.newlines_in]. apply negb_true_iff in Hc. rewrite Hc.
    now rewrite IH.
Qed.

(** C8.  The buffer holds ["x = 1\n"] and is saved to [path], either as the
    backing path or as the name chosen in the save-as dialog.  Opening [path]
    afterwards makes ["x = 1\n"] the content of the buffer again and [path]
    the backing path: at once, and also after the buffer was changed in
    between and the change discarded in the prompt.  (The only exception that
    can leave [open_file] there is the one of the highlight pass, after the
    buffer was filled.) *)
Theorem save_then_open_restores_buffer (s : editor) (path : string) :
  text s = ("x = 1" ++ PyStr.nl)%string ->
  PyStr.truthy path = true ->
  file_path s = None \/ file_path s = Some path ->
  let saved := save_file path s in
  files saved path = Some (Files.newlines_out (Files.linesep (os s)) (text s)) /\
  (forall answer save_name,
     let reopened := open_file answer save_name path saved in
     snd reopened = string_search_error s /\
     text (fst reopened) = ("x = 1" ++ PyStr.nl)%string /\
     file_path (fst reopened) = Some path) /\
  (forall junk save_name,
     let reopened :=
       open_file (Some false) save_name path (set_modified true (set_text junk saved)) in
     snd reopened = string_search_error s /\
     text (fst reopened) = ("x = 1" ++ PyStr.nl)%string /\
     file_path (fst reopened) = Some path).
Proof.
  intros Htext Hpath Hwhere saved.
  assert (Hsaved : saved = save_file_to path (set_file_path (Some path) s)).
  { subst saved. unfold save_file, save_file_as.
    destruct Hwhere as [-> | E]; [now rewrite Hpath|].
    rewrite E. unfold save_file_to. cbn. destruct s; cbn in *. now subst. }
  assert (Hread : forall content,
            Files.read_text path (files (text_delete_all (set_modified false
              (set_modified true (set_text content saved)))))
            = inl ("x = 1" ++ PyStr.nl)%string).
  { intros content. rewrite Hsaved. unfold Files.read_text, save_file_to, Files.write_text.
    cbn. rewrite String.eqb_refl, Htext. now destruct (os s). }
  split; [|split].
  - rewrite Hsaved. unfold save_file_to, Files.write_text. cbn.
    now rewrite String.eqb_refl.
  - intros answer0 save_name reopened. subst reopened.
    unfold open_file, _confirm_unsaved_changes.
    replace (modified saved) with false by now rewrite Hsaved.
    cbn [negb]. rewrite Hpath.
    specialize (Hread (text saved)).
    cbn -[_highlight_syntax Files.read_text] in Hread |- *.
    rewrite Hread. highlight_by highlight_syntax_eq.
    rewrite Hsaved. cbn. now destruct (string_search_error s).
  - intros junk save_name reopened. subst reopened.
    unfold open_file, _confirm_unsaved_changes.
    cbn [modified set_modified negb]. rewrite Hpath.
    specialize (Hread junk).
    cbn -[_highlight_syntax Files.read_text] in Hread |- *.
    rewrite Hread. highlight_by highlight_syntax_eq.
    rewrite Hsaved. cbn. now destruct (string_search_error s).
Qed.

Lemma save_then_open_restores_buffer_witness :
  let s :=
    set_file_path (Some "lesson.py")
      (set_text ("x = 1" ++ PyStr.nl)%string
         (initial Files.Windows (fun _ => None) (Some TclError))) in
  files (save_file "" s) "lesson.py" = Some ("x = 1" ++ PyStr.cr ++ PyStr.nl)%string /\
  text (fst (open_file None "" "lesson.py" (save_file "" s)))
  = ("x = 1" ++ PyStr.nl)%string.
Proof.
  intros s. split; [reflexivity|].
  assert (H : file_path s = None \/ file_path s = Some "lesson.py") by now right.
  pose proof (save_then_open_restores_buffer s "lesson.py" eq_refl eq_refl H)
    as (_ & Hopen & _).
  assert (E : save_file "" s = save_file "lesson.py" s) by reflexivity.
  rewrite E. exact (proj1 (proj2 (Hopen None ""))).
Defined.

(** ** The execution engine *)

(** What [_execute_code] adds to the console is the captured output followed
    by the captured errors. *)
Lemma execute_code_console exec (code : string) (s : editor) :
  let o := exec code in
  console (fst (_execute_code exec code s)) =
  (console s ++ written_stdout o ++ written_stderr o ++
   match raised o with
   | Some exc =>
       if exc_is_Exception exc then "Error: " ++ exc_str exc ++ PyStr.nl else ""
   | None => ""
   end)%string.
Proof.
  cbn zeta. unfold _execute_code, console_insert.
  destruct (exec code) as [out err [exc|]]; cbn [written_stdout written_stderr raised].
  - destruct (exc_is_Exception exc); cbn beta iota zeta;
      repeat split_match; cbn [fst console set_console];
      repeat match goal with
             | H : PyStr.truthy _ = false |- _ => apply truthy_false_empty in H
             end;
      subst; rewrite ?append_empty_r, ?append_assoc; cbn; try reflexivity;
      try discriminate.
    + destruct err; discriminate.
    + destruct err; discriminate.
  - cbn beta iota zeta.
      repeat split_match; cbn [fst console set_console];
      repeat match goal with
             | H : PyStr.truthy _ = false |- _ => apply truthy_false_empty in H
             end;
      subst; rewrite ?append_empty_r, ?append_assoc; cbn; reflexivity.
Qed.

Lemma execute_code_propagates exec (code : string) (s : editor) :
  snd (_execute_code exec code s) =
  match raised (exec code) with
  | Some exc => if exc_is_Exception exc then None else Some exc
  | None => None
  end.
Proof.
  unfold _execute_code.
  destruct (raised (exec code)) as [exc|]; [destruct (exc_is_Exception exc)|];
    reflexivity.
Qed.

(** C1, as the code has it.  When the execution of a program text ends with
    an exception whose class derives from [Exception], nothing leaves
    [_execute_code]: the line ["Error: " + str(exc)] and a line feed are
    added to the captured error text, which goes to the console after the
    captured output.  An exception that derives from [BaseException] only
    ([SystemExit], [KeyboardInterrupt]) is not caught: the captured text goes
    to the console and the exception leaves [_execute_code]. *)
Theorem execute_code_catches_Exception exec (code : string) (s : editor)
  (exc : py_exception) :
  raised (exec code) = Some exc ->
  let result := _execute_code exec code s in
  let o := exec code in
  (exc_is_Exception exc = true ->
   snd result = None /\
   console (fst result) =
   (console s ++ written_stdout o ++
    (written_stderr o ++ "Error: " ++ exc_str exc ++ PyStr.nl))%string) /\
  (exc_is_Exception exc = false ->
   snd result = Some exc /\
   console (fst result) = (console s ++ written_stdout o ++ written_stderr o)%string).
Proof.
  intros Hraised result o. subst result o.
  rewrite execute_code_propagates, execute_code_console. cbn zeta.
  rewrite Hraised.
  split; intros ->; (split; [reflexivity|]).
  - reflexivity.
  - now rewrite append_empty_r.
Qed.

Lemma execute_code_catches_Exception_witness :
  let s := initial Files.Posix (fun _ => None) (Some TclError) in
  snd (_execute_code Fragment.exec "raise ValueError('x')" s) = None /\
  console (fst (_execute_code Fragment.exec "raise ValueError('x')" s))
  = ("Error: x" ++ PyStr.nl)%string.
Proof.
  intros s.
  destruct (execute_code_catches_Exception Fragment.exec "raise ValueError('x')" s
              (mkExc "ValueError" true "x") eq_refl) as [Hcaught _].
  destruct (Hcaught eq_refl) as [Hnone Hconsole].
  split; [exact Hnone | exact Hconsole].
Defined.

(** C1 as stated fails: [SystemExit] raised by the program leaves
    [_execute_code], and no ["Error: ..."] line reaches the console. *)
Lemma SystemExit_leaves_execute_code :
  let s := initial Files.Posix (fun _ => None) (Some TclError) in
  let code := "raise SystemExit('bye')" in
  raised (Fragment.exec code) = Some (mkExc "SystemExit" false "bye") /\
  snd (_execute_code Fragment.exec code s) = Some (mkExc "SystemExit" false "bye") /\
  console (fst (_execute_code Fragment.exec code s)) = "".
Proof. repeat split. Qed.

(** C2, as the code has it.  For an interpreter that prints ["hi\n"] for
    [print('hi')], running that text adds exactly ["hi\n"] to the console
    and nothing else.  When the execution of [code] ends with an exception
    deriving from [Exception], the console receives the output captured
    before the error, then the captured error text ending with
    ["Error: " + str(exc) + "\n"]; what is added begins with ["Error: "] when
    the program wrote nothing to either stream before it raised. *)
Theorem execute_code_console_text exec (code : string) (s : editor)
  (exc : py_exception) :
  exec "print('hi')" = mkOutcome ("hi" ++ PyStr.nl) "" None ->
  raised (exec code) = Some exc ->
  exc_is_Exception exc = true ->
  let hi := _execute_code exec "print('hi')" s in
  let result := _execute_code exec code s in
  let o := exec code in
  (snd hi = None /\ console (fst hi) = (console s ++ "hi" ++ PyStr.nl)%string) /\
  console (fst result) =
  (console s ++ written_stdout o ++ written_stderr o ++
   "Error: " ++ exc_str exc ++ PyStr.nl)%string /\
  (written_stdout o = "" -> written_stderr o = "" ->
   console (fst result) = (console s ++ "Error: " ++ exc_str exc ++ PyStr.nl)%string).
Proof.
  intros Hhi Hraised Hexc hi result o. subst hi result o.
  rewrite !execute_code_propagates, !execute_code_console. cbn zeta.
  rewrite Hhi, Hraised, Hexc. cbn [raised written_stdout written_stderr].
  split; [split; [reflexivity|]|split].
  - now rewrite !append_empty_r.
  - reflexivity.
  - now intros -> ->.
Qed.

Lemma execute_code_console_text_witness :
  let s := initial Files.Posix (fun _ => None) (Some TclError) in
  console (fst (_execute_code Fragment.exec "print('hi')" s)) = ("hi" ++ PyStr.nl)%string /\
  console (fst (_execute_code Fragment.exec "raise ValueError('x')" s))
  = ("Error: x" ++ PyStr.nl)%string.
Proof.
  intros s.
  destruct (execute_code_console_text Fragment.exec "raise ValueError('x')" s
              (mkExc "ValueError" true "x") eq_refl eq_refl eq_refl)
    as ((_ & Hhi) & _ & Herr).
  split; [exact Hhi | exact (Herr eq_refl eq_refl)].
Defined.

(** C2 as stated fails: a program that prints and then raises has its
    output added to the console, before the error line. *)
Lemma output_before_error_reaches_console :
  let s := initial Files.Posix (fun _ => None) (Some TclError) in
  let code := ("print('a')" ++ PyStr.nl ++ "raise ValueError('x')")%string in
  raised (Fragment.exec code) = Some (mkExc "ValueError" true "x") /\
  written_stdout (Fragment.exec code) = ("a" ++ PyStr.nl)%string /\
  console (fst (_execute_code Fragment.exec code s))
  = ("a" ++ PyStr.nl ++ "Error: x" ++ PyStr.nl)%string /\
  String.prefix "Error: " (console (fst (_execute_code Fragment.exec code s))) = false.
Proof. repeat split. Qed.

(** ** Autocomplete *)

Lemma autocomplete_matches_spec (word item : string) :
  In item (autocomplete_matches word) <->
  In item AUTOCOMPLETE_SUGGESTIONS /\ String.prefix word item = true.
Proof. unfold autocomplete_matches. apply filter_In. Qed.

(** C7, as the code has it.  The trigger keeps the suggestions that start
    with the current word, in the order of the suggestion list (for ["pri"]
    that is ["print"] alone), and returns ["break"] in every case.  With
    matches and a box for the cursor, the matches are the items of the new
    popup.  Without matches no popup is opened, and the state is the one
    before except that a popup left open earlier has been destroyed; with no
    earlier popup the state is unchanged. *)
Theorem show_autocomplete_filters_by_prefix (word : string) (bbox : bool) (s : editor) :
  let matches := autocomplete_matches word in
  let result := _show_autocomplete word bbox s in
  (forall item,
     In item matches <->
     In item AUTOCOMPLETE_SUGGESTIONS /\ String.prefix word item = true) /\
  autocomplete_matches "pri" = ["print"] /\
  snd result = "break" /\
  (matches <> [] -> bbox = true -> _autocomplete_list (fst result) = Some matches) /\
  (matches = [] ->
   fst result = match _autocomplete_window s with
                | Some w => destroy w s
                | None => s
                end /\
   (_autocomplete_window s = None -> fst result = s) /\
   text (fst result) = text s /\
   _autocomplete_window (fst result) = _autocomplete_window s /\
   _autocomplete_list (fst result) = _autocomplete_list s).
Proof.
  cbn zeta. split; [apply autocomplete_matches_spec|].
  split; [reflexivity|].
  unfold _show_autocomplete.
  destruct (autocomplete_matches word) as [|m ms] eqn:Hm.
  - split; [reflexivity|]. split; [congruence|]. intros _.
    split; [reflexivity|].
    destruct (_autocomplete_window s) as [w|] eqn:Hw; repeat split;
      solve [reflexivity | exact Hw | intros H; discriminate H].
  - destruct bbox; cbn [negb fst snd].
    + split; [reflexivity|]. split; [reflexivity|]. discriminate.
    + split; [reflexivity|]. split; [discriminate|]. discriminate.
Qed.

Lemma show_autocomplete_filters_by_prefix_witness :
  let s := initial Files.Posix (fun _ => None) (Some TclError) in
  fst (_show_autocomplete "zzz" true s) = s /\
  snd (_show_autocomplete "zzz" true s) = "break".
Proof.
  intros s.
  destruct (show_autocomplete_filters_by_prefix "zzz" true s)
    as (_ & _ & Hbreak & _ & Hempty).
  destruct (Hempty eq_refl) as (_ & Hsame & _).
  split; [exact (Hsame eq_refl) | exact Hbreak].
Defined.

(** C7 as stated fails: with a popup on the screen, a trigger whose word has
    no match destroys the popup. *)
Lemma autocomplete_without_match_destroys_popup :
  let s0 := initial Files.Posix (fun _ => None) (Some TclError) in
  let s1 := fst (_show_autocomplete "pri" true s0) in
  let s2 := fst (_show_autocomplete "zzz" true s1) in
  autocomplete_matches "zzz" = [] /\
  _autocomplete_window s1 = Some 0 /\
  windows s1 = [0] /\
  windows s2 = [].
Proof. repeat split. Qed.

(** ** The highlight timer *)

(** While [_highlight_syntax] runs from its timer only, the discipline of
    the single handle is kept. *)

Lemma NoDup_map_fst_filter {A B : Type} (f : A * B -> bool) (l : list (A * B)) :
  NoDup (map fst l) -> NoDup (map fst (filter f l)).
Proof.
  induction l as [|x l IH]; cbn; intros H; [constructor|].
  inversion H as [|? ? Hnotin Hl]; subst.
  destruct (f x); cbn; [|now apply IH].
  constructor; [|now apply IH].
  intros Hin. apply Hnotin. apply in_map_iff in Hin as (y & Hy & Hin).
  apply filter_In in Hin as [Hin _]. apply in_map_iff. now exists y.
Qed.

Lemma debounced_cancel (id : nat) (s : editor) :
  debounced s ->
  NoDup (map fst (timers (after_cancel id s))) /\
  (forall id' cb, In (id', cb) (timers (after_cancel id s)) ->
     id' <> id /\ In (id', cb) (timers s)).
Proof.
  intros (Hnodup & _ & _). unfold after_cancel. cbn [timers set_timers]. split.
  - now apply NoDup_map_fst_filter.
  - intros id' cb Hin. apply filter_In in Hin as [Hin Hne]. cbn in Hne.
    apply negb_true_iff, Nat.eqb_neq in Hne. now split.
Qed.

Lemma debounced_on_text_change (s : editor) :
  debounced s -> debounced (_on_text_change s).
Proof.
  intros Hs. pose proof Hs as (Hnodup & Hbound & Hslot).
  assert (Hrest : exists ts,
             _on_text_change s
             = set_after_id (Some (next_timer s))
                 (set_next_timer (S (next_timer s))
                    (set_timers (ts ++ [(next_timer s, HighlightSyntax)])
                       (match _after_id s with
                        | Some id => after_cancel id s
                        | None => s
                        end))) /\
             NoDup (map fst ts) /\
             (forall id cb, In (id, cb) ts -> id < next_timer s /\ cb <> HighlightSyntax)).
  { unfold _on_text_change, after. destruct (_after_id s) as [id|] eqn:Eslot.
    - exists (timers (after_cancel id s)). split; [reflexivity|].
      destruct (debounced_cancel id s Hs) as [Hnd Hin]. split; [exact Hnd|].
      intros id' cb H. apply Hin in H as [Hne H]. split; [eapply Hbound, H|].
      intros ->. apply Hslot in H. congruence.
    - exists (timers s). split; [reflexivity|]. split; [exact Hnodup|].
      intros id' cb H. split; [eapply Hbound, H|].
      intros ->. apply Hslot in H. congruence. }
  destruct Hrest as (ts & -> & Hnd & Hts).
  unfold debounced.
  cbn [timers next_timer _after_id set_after_id set_next_timer set_timers].
  split; [|split].
  - rewrite map_app. apply NoDup_app; [exact Hnd | repeat constructor; intros [] |].
    intros id Hin [<- | []]. apply in_map_iff in Hin as ([id' cb] & E & Hin).
    cbn in E. subst id'. apply Hts in Hin. lia.
  - intros id cb Hin. apply in_app_iff in Hin as [Hin | [E | []]].
    + apply Hts in Hin. lia.
    + inversion E. lia.
  - intros id Hin. apply in_app_iff in Hin as [Hin | [E | []]].
    + apply Hts in Hin as [_ Hne]. now elim Hne.
    + now inversion E.
Qed.

Lemma debounced_fire (id : nat) (s : editor) :
  debounced s -> debounced (fire id s).
Proof.
  intros Hs. pose proof Hs as (Hnodup & Hbound & Hslot). unfold fire.
  destruct (find (fun t => fst t =? id) (timers s)) as [[n cb]|] eqn:Efind; [|exact Hs].
  apply find_some in Efind as [Hin Hn]. cbn in Hn. apply Nat.eqb_eq in Hn. subst n.
  destruct (debounced_cancel id s Hs) as [Hnd Hrest].
  destruct cb.
  - unfold debounced, _highlight_syntax.
    destruct (keyword_pass kwlist _);
      cbn [timers next_timer _after_id set_keyword_tags set_after_id];
      (split; [exact Hnd|]); (split; [intros i c H; apply Hrest in H as [_ H];
                                       eapply Hbound, H|]);
      intros i H; apply Hrest in H as [Hne H]; apply Hslot in H;
      apply Hslot in Hin; congruence.
  - unfold debounced, _show_quiz_question.
    destruct (nth_error QUIZ_QUESTIONS _);
      cbn [fst timers next_timer _after_id set_quiz_feedback set_quiz_entry
             set_quiz_prompt];
      (split; [exact Hnd|]); (split; [intros i c H; apply Hrest in H as [_ H];
                                       eapply Hbound, H|]);
      intros i H; apply Hrest in H as [_ H]; now apply Hslot in H.
Qed.

Lemma debounced_check_quiz (s : editor) :
  debounced s -> debounced (fst (_check_quiz s)).
Proof.
  intros Hs. pose proof Hs as (Hnodup & Hbound & Hslot). unfold _check_quiz.
  destruct (nth_error QUIZ_QUESTIONS (_quiz_index s)) as [q|]; [|exact Hs].
  unfold after, debounced.
  destruct (String.eqb _ _);
    cbn [fst timers next_timer _after_id set_timers set_next_timer
           set_quiz_feedback set_quiz_index];
    (split; [|split]).
  all: try (rewrite map_app; apply NoDup_app;
            [exact Hnodup | repeat constructor; intros [] |];
            intros id Hin [<- | []]; apply in_map_iff in Hin as ([id' cb] & E & Hin);
            cbn in E; subst id'; apply Hbound in Hin; lia).
  all: try (intros id cb Hin; apply in_app_iff in Hin as [Hin | [E | []]];
            [apply Hbound in Hin; lia | inversion E; lia]).
  all: intros id Hin; apply in_app_iff in Hin as [Hin | [E | []]];
    [now apply Hslot | discriminate E].
Qed.

Lemma confirm_unsaved_changes_keeps_timers answer save_name (s : editor) :
  let s' := fst (_confirm_unsaved_changes answer save_name s) in
  timers s' = timers s /\ next_timer s' = next_timer s /\ _after_id s' = _after_id s.
Proof.
  unfold _confirm_unsaved_changes, save_file, save_file_as, save_file_to.
  repeat split_match; repeat split.
Qed.

(** The other callbacks leave the timers and the handle as they are. *)
Lemma step_keeps_timers exec (a : action) (s : editor) :
  calls_highlight_directly a = false ->
  a <> OnTextChange -> (forall id, a <> TimerFires id) -> a <> CheckQuiz ->
  timers (step exec a s) = timers s /\
  next_timer (step exec a s) = next_timer s /\
  _after_id (step exec a s) = _after_id s.
Proof.
  intros Hdirect Hchange Hfire Hcheck.
  destruct a as [ | |id| | | | | |answer0 save_name| | | | | | ];
    try discriminate Hdirect;
    try (now elim Hchange); try (now elim Hcheck); try (now elim (Hfire id));
    cbn [step].
  all: try match goal with
           | |- context [new_file ?ans ?name ?s0] =>
               pose proof (confirm_unsaved_changes_keeps_timers ans name s0) as H;
               unfold new_file;
               destruct (_confirm_unsaved_changes ans name s0) as [s1 [|]];
               exact H
           end.
  all: unfold _show_autocomplete, _close_autocomplete, save_file, save_file_as,
         save_file_to, run_code, run_selection, _execute_code, clear_console;
       repeat split_match; repeat split.
Qed.

Lemma debounced_step exec (a : action) (s : editor) :
  calls_highlight_directly a = false ->
  debounced s -> debounced (step exec a s).
Proof.
  intros Hdirect Hs.
  destruct a; try discriminate Hdirect;
    try (destruct (step_keeps_timers exec _ s Hdirect) as (Et & En & Ea);
         [discriminate | discriminate | discriminate |];
         unfold debounced; rewrite Et, En, Ea; exact Hs).
  - now apply debounced_on_text_change.
  - now apply debounced_fire.
  - now apply debounced_check_quiz.
Qed.

Lemma debounced_one_timer (s : editor) :
  debounced s -> length (highlight_timers s) <= 1.
Proof.
  intros (Hnodup & _ & Hslot). unfold highlight_timers.
  set (is_hl := fun t : nat * callback =>
                  match snd t with HighlightSyntax => true | _ => false end).
  pose proof (NoDup_map_fst_filter is_hl _ Hnodup) as Hnd.
  assert (Hsame : forall t, In t (filter is_hl (timers s)) -> _after_id s = Some (fst t)).
  { intros [id cb] Hin. apply filter_In in Hin as [Hin Hcb].
    unfold is_hl in Hcb. cbn in Hcb. destruct cb; [|discriminate]. now apply Hslot. }
  destruct (filter is_hl (timers s)) as [|t1 [|t2 l]]; cbn; [lia | lia |].
  exfalso. cbn in Hnd. inversion Hnd as [|? ? Hnotin _]; subst.
  apply Hnotin. left.
  pose proof (Hsame t1 (or_introl eq_refl)) as E1.
  pose proof (Hsame t2 (or_intror (or_introl eq_refl))) as E2. congruence.
Qed.

(** X2.  Along callbacks none of which calls [_highlight_syntax] itself, at
    most one highlight timer is pending. *)
Lemma one_highlight_timer_without_direct_calls exec os files err
  (actions : list action) :
  forallb (fun a => negb (calls_highlight_directly a)) actions = true ->
  length (highlight_timers (run exec actions (initial os files err))) <= 1.
Proof.
  intros Hactions. apply debounced_one_timer.
  assert (Hinit : debounced (initial os files err)).
  { unfold debounced, initial, _highlight_syntax.
    destruct (keyword_pass kwlist _); cbn; (split; [constructor|]); split;
      intros; contradiction. }
  revert Hactions. generalize (initial os files err) Hinit.
  induction actions as [|a actions IH]; intros s Hs Hall; [exact Hs|].
  cbn in Hall. apply andb_prop in Hall as [Ha Hall]. apply negb_true_iff in Ha.
  cbn [run fold_left]. apply IH; [|exact Hall]. now apply debounced_step.
Qed.


(** ** The keyword loop of the highlight pass *)

Import TkSearch.

Lemma match_literal_app (kw : list ascii) (prev : option ascii) (r : list ascii) :
  match_literal kw prev (kw ++ r) = Some (last_seen prev kw, r).
Proof.
  revert prev. induction kw as [|a kw IH]; intros prev; cbn; [reflexivity|].
  rewrite Ascii.eqb_refl. apply IH.
Qed.

Lemma match_literal_inv (kw : list ascii) (prev p : option ascii) (rest r : list ascii) :
  match_literal kw prev rest = Some (p, r) -> rest = kw ++ r.
Proof.
  revert prev rest. induction kw as [|a kw IH]; intros prev rest H; cbn in H.
  - now inversion H.
  - destruct rest as [|c rest]; [discriminate|].
    destruct (Ascii.eqb_spec a c) as [->|]; [|discriminate].
    cbn. f_equal. eapply IH, H.
Qed.

Lemma regex_search_found (kw : list ascii) (rest : list ascii) :
  forall prev k,
    regex_search kw prev rest = Some k ->
    matches_here kw (prev_k prev rest k) (skipn k rest) = true /\
    forall j, j < k -> matches_here kw (prev_k prev rest j) (skipn j rest) = false.
Proof.
  induction rest as [|c rest IH]; intros prev k H; cbn [regex_search] in H.
  - destruct (matches_here kw prev []) eqn:E; [|discriminate].
    inversion H; subst. split; [exact E | intros j Hj; lia].
  - destruct (matches_here kw prev (c :: rest)) eqn:E.
    + inversion H; subst. split; [exact E | intros j Hj; lia].
    + destruct (regex_search kw (Some c) rest) as [k'|] eqn:E'; [|discriminate].
      inversion H; subst. destruct (IH _ _ E') as [Hk Hbefore].
      split.
      * destruct k'; exact Hk.
      * intros [|j] Hj; [exact E|].
        specialize (Hbefore j ltac:(lia)). destruct j; exact Hbefore.
Qed.

Lemma regex_search_none (kw : list ascii) (rest : list ascii) :
  forall prev,
    regex_search kw prev rest = None ->
    forall j, matches_here kw (prev_k prev rest j) (skipn j rest) = false.
Proof.
  induction rest as [|c rest IH]; intros prev H j; cbn [regex_search] in H.
  - destruct (matches_here kw prev []) eqn:E; [discriminate|].
    destruct j as [|j]; [exact E|]. cbn. now destruct j.
  - destruct (matches_here kw prev (c :: rest)) eqn:E; [discriminate|].
    destruct (regex_search kw (Some c) rest) as [k'|] eqn:E'; [discriminate|].
    destruct j as [|j]; [exact E|].
    specialize (IH _ E' j). destruct j; exact IH.
Qed.

Section KeywordScan.

(** A keyword: not empty, made of word characters. *)
Variable kw : list ascii.
Hypothesis kw_not_empty : kw <> [].
Hypothesis kw_word : Forall (fun c => is_word_char c = true) kw.

Variable content : list ascii.

Lemma last_seen_word (prev : option ascii) :
  exists c, last_seen prev kw = Some c /\ is_word_char c = true.
Proof.
  revert prev kw_not_empty kw_word.
  induction kw as [|a l IH]; intros prev Hne Hword; [contradiction|].
  inversion Hword as [|? ? Ha Hl]; subst.
  destruct l as [|b l].
  - exists a. now split.
  - apply (IH (Some a)); [discriminate | exact Hl].
Qed.

Lemma matches_here_iff (prev : option ascii) (rest : list ascii) :
  matches_here kw prev rest = true <->
  match prev with None => True | Some c => is_word_char c = false end /\
  exists r, rest = kw ++ r /\
            forall c, hd_error r = Some c -> is_word_char c = false.
Proof.
  unfold matches_here, at_word_start, at_word_end. split.
  - intros H. apply andb_prop in H as [Hstart Hrest].
    apply andb_prop in Hstart as [Hprev _].
    split; [destruct prev; [now apply negb_true_iff in Hprev | exact I]|].
    destruct (match_literal kw prev rest) as [[p r]|] eqn:E; [|discriminate].
    exists r. split; [eapply match_literal_inv, E|].
    apply andb_prop in Hrest as [_ Hr].
    intros c Hc. destruct r as [|c' r]; [discriminate|].
    inversion Hc; subst. now apply negb_true_iff in Hr.
  - intros [Hprev (r & -> & Hr)].
    rewrite match_literal_app.
    destruct (last_seen_word prev) as (c & -> & Hc). rewrite Hc.
    destruct kw as [|a l]; [contradiction|].
    inversion kw_word as [|? ? Ha _]; subst. cbn [app]. rewrite Ha.
    assert (match prev with Some c0 => negb (is_word_char c0) | None => true end = true)
      as -> by (destruct prev; [now rewrite Hprev | reflexivity]).
    cbn. destruct r as [|c' r]; [reflexivity|].
    now rewrite (Hr c' eq_refl).
Qed.

Lemma occurs_at_iff (i : nat) :
  occurs_at kw content i <-> exists r, skipn i content = kw ++ r.
Proof.
  unfold occurs_at. split.
  - intros H. exists (skipn (length kw) (skipn i content)).
    rewrite <- H at 1. symmetry. apply firstn_skipn.
  - intros [r ->]. rewrite firstn_app, Nat.sub_diag, firstn_all. cbn.
    apply app_nil_r.
Qed.

Lemma boundary_before_iff (i : nat) :
  boundary_before content i <->
  match prev_of content i with None => True | Some c => is_word_char c = false end.
Proof.
  unfold boundary_before, prev_of, prev_k. destruct i as [|j]; [tauto|].
  destruct (nth_error content j) as [c|]; split; auto; try discriminate.
  - intros H c' E. now inversion E; subst.
Qed.

(** At a position with the true previous character, the pattern matches
    exactly on the whole-word occurrences. *)
Lemma matches_here_whole_word (i : nat) :
  matches_here kw (prev_of content i) (skipn i content) = true <-> whole_word_at kw content i.
Proof.
  unfold whole_word_at. rewrite matches_here_iff, occurs_at_iff, boundary_before_iff.
  unfold boundary_after.
  split.
  - intros [Hprev (r & Hr & Hafter)].
    split; [now exists r|]. split; [exact Hprev|].
    intros c Hc. apply Hafter.
    rewrite <- hd_error_skipn in Hc.
    rewrite Nat.add_comm, <- skipn_skipn, Hr, skipn_app in Hc.
    now rewrite skipn_all, Nat.sub_diag in Hc.
  - intros [(r & Hr) [Hprev Hafter]].
    split; [exact Hprev|]. exists r. split; [exact Hr|].
    intros c Hc. apply Hafter.
    rewrite <- hd_error_skipn.
    rewrite Nat.add_comm, <- skipn_skipn, Hr, skipn_app.
    now rewrite skipn_all, Nat.sub_diag.
Qed.

(** A search started where no word character follows finds nothing right
    there, although nothing is before the start for the matcher. *)
Lemma no_match_at_boundary (s : nat) :
  boundary_after content s ->
  matches_here kw None (skipn s content) = false /\ ~ whole_word_at kw content s.
Proof.
  intros Hs.
  assert (Hno : forall r, skipn s content = kw ++ r -> False).
  { intros r Hr. destruct kw as [|a l]; [contradiction|].
    inversion kw_word as [|? ? Ha _]; subst.
    assert (E : nth_error content s = Some a)
      by now rewrite <- hd_error_skipn, Hr.
    specialize (Hs a E). congruence. }
  split.
  - destruct (matches_here kw None (skipn s content)) eqn:E; [|reflexivity].
    apply matches_here_iff in E as [_ (r & Hr & _)]. now destruct (Hno r).
  - intros [Hocc _]. apply occurs_at_iff in Hocc as [r Hr]. now apply (Hno r).
Qed.

(** The matcher started at [s] decides, at every offset, whether a
    whole-word occurrence starts there. *)
Lemma matcher_decides (s k : nat) :
  s = 0 \/ boundary_after content s ->
  matches_here kw (prev_k None (skipn s content) k) (skipn k (skipn s content)) = true
  <-> whole_word_at kw content (s + k).
Proof.
  intros Hs. rewrite skipn_skipn, (Nat.add_comm k s).
  destruct k as [|k].
  - rewrite Nat.add_0_r. cbn [prev_k].
    destruct Hs as [-> | Hs]; [apply (matches_here_whole_word 0)|].
    destruct (no_match_at_boundary s Hs) as [-> Hnot].
    split; [discriminate | contradiction].
  - cbn [prev_k]. rewrite nth_error_skipn.
    rewrite <- (matches_here_whole_word (s + S k)).
    unfold prev_of. rewrite Nat.add_succ_r. reflexivity.
Qed.

Lemma search_spec (s : nat) :
  s = 0 \/ boundary_after content s ->
  match search kw content s with
  | Some found =>
      s <= found /\ whole_word_at kw content found /\
      forall i, s <= i < found -> ~ whole_word_at kw content i
  | None => forall i, s <= i -> ~ whole_word_at kw content i
  end.
Proof.
  intros Hs. unfold search.
  destruct (regex_search kw None (skipn s content)) as [k|] eqn:E; cbn [option_map].
  - destruct (regex_search_found _ _ _ _ E) as [Hk Hbefore].
    split; [lia|]. split; [now apply matcher_decides|].
    intros i Hi Hww.
    replace i with (s + (i - s)) in Hww by lia.
    apply matcher_decides in Hww; [|exact Hs].
    rewrite Hbefore in Hww; [discriminate | lia].
  - intros i Hi Hww.
    replace i with (s + (i - s)) in Hww by lia.
    apply matcher_decides in Hww; [|exact Hs].
    now rewrite (regex_search_none _ _ _ E) in Hww.
Qed.

(** What a whole-word occurrence at [f] tells about the positions up to its
    end. *)
Lemma whole_word_extent (f : nat) :
  whole_word_at kw content f ->
  f + length kw <= length content /\
  1 <= length kw /\
  boundary_after content (f + length kw) /\
  forall i, f < i < f + length kw -> ~ whole_word_at kw content i.
Proof.
  intros (Hocc & _ & Hafter).
  apply occurs_at_iff in Hocc as [r Hr].
  assert (Hlen : length (skipn f content) = length kw + length r)
    by now rewrite Hr, length_app.
  rewrite length_skipn in Hlen.
  assert (1 <= length kw) by (destruct kw; [contradiction | cbn; lia]).
  split; [lia|]. split; [lia|]. split; [exact Hafter|].
  intros i Hi (_ & Hbefore & _).
  destruct i as [|j]; [lia|]. cbn [boundary_before] in Hbefore.
  assert (E : nth_error content j = nth_error kw (j - f)).
  { replace j with (f + (j - f)) at 1 by lia.
    rewrite <- nth_error_skipn, Hr. apply nth_error_app1. lia. }
  destruct (nth_error kw (j - f)) as [c|] eqn:Ec.
  - specialize (Hbefore c E).
    apply nth_error_In in Ec.
    rewrite Forall_forall in kw_word. specialize (kw_word c Ec). congruence.
  - apply nth_error_None in Ec. lia.
Qed.

(** The loop reaches its [break] and has then tagged exactly the whole-word
    occurrences from [start] on. *)
Lemma keyword_loop_spec (fuel : nat) :
  forall start,
    start = 0 \/ boundary_after content start ->
    length content - start < fuel ->
    exists spans,
      keyword_loop fuel kw content start = Some spans /\
      forall i j,
        In (i, j) spans <-> j = i + length kw /\ start <= i /\ whole_word_at kw content i.
Proof.
  induction fuel as [|fuel IH]; intros start Hstart Hfuel; [lia|].
  cbn [keyword_loop]. pose proof (search_spec start Hstart) as Hsearch.
  destruct (search kw content start) as [found|].
  - destruct Hsearch as (Hle & Hww & Hbefore).
    destruct (whole_word_extent found Hww) as (Hend & Hpos & Hafter & Hinside).
    destruct (IH (found + length kw) (or_intror Hafter) ltac:(lia))
      as (spans & -> & Hspans).
    exists ((found, found + length kw) :: spans). split; [reflexivity|].
    intros i j. cbn [In]. rewrite Hspans. split.
    + intros [E | (-> & Hi & Hw)].
      * inversion E; subst. auto.
      * split; [reflexivity|]. split; [lia | exact Hw].
    + intros (-> & Hi & Hw).
      destruct (Nat.lt_trichotomy i found) as [Hlt | [-> | Hgt]].
      * now destruct (Hbefore i (conj Hi Hlt)).
      * now left.
      * right. split; [reflexivity|]. split; [|exact Hw].
        destruct (Nat.le_gt_cases (found + length kw) i) as [|Hin]; [assumption|].
        now destruct (Hinside i (conj Hgt Hin)).
  - exists []. split; [reflexivity|].
    intros i j. cbn [In]. split; [contradiction|].
    intros (_ & Hi & Hw). exact (Hsearch i Hi Hw).
Qed.

End KeywordScan.

Lemma length_list_ascii_of_string (s : string) :
  length (list_ascii_of_string s) = String.length s.
Proof. induction s as [|c s IH]; cbn; [reflexivity | now rewrite IH]. Qed.

Lemma kwlist_keyword_like (kw : string) :
  In kw kwlist ->
  list_ascii_of_string kw <> [] /\
  Forall (fun c => is_word_char c = true) (list_ascii_of_string kw).
Proof.
  intros Hin.
  assert (H : forallb keyword_like kwlist = true) by reflexivity.
  rewrite forallb_forall in H. specialize (H kw Hin).
  unfold keyword_like in H. apply andb_prop in H as [Hne Hword].
  split.
  - destruct kw; [discriminate | cbn; discriminate].
  - apply Forall_forall. now apply forallb_forall.
Qed.

(** The loop of one keyword ends, and the ranges it tags are the whole-word
    occurrences of the keyword. *)
Lemma keyword_spans_spec (kw content : string) :
  In kw kwlist ->
  exists spans,
    keyword_spans kw content = Some spans /\
    forall i j,
      In (i, j) spans <->
      j = i + String.length kw /\ whole_word_occurrence kw content i.
Proof.
  intros Hin. destruct (kwlist_keyword_like kw Hin) as [Hne Hword].
  destruct (keyword_loop_spec (list_ascii_of_string kw) Hne Hword
              (list_ascii_of_string content)
              (S (length (list_ascii_of_string content))) 0
              (or_introl eq_refl) ltac:(lia))
    as (spans & Hloop & Hspans).
  exists spans. split; [exact Hloop|].
  intros i j. rewrite Hspans, length_list_ascii_of_string.
  unfold whole_word_occurrence.
  split; [intros (? & _ & ?) | intros (? & ?)]; (split; [assumption|]);
    [assumption | split; [apply Nat.le_0_l | assumption]].
Qed.

(** The pass over a list of keywords ends, and its ranges are those of the
    loops of these keywords. *)
Lemma keyword_pass_spec (content : string) (kws : list string) :
  incl kws kwlist ->
  exists tags,
    keyword_pass kws content = Some tags /\
    forall sp,
      In sp tags <->
      exists kw spans, In kw kws /\ keyword_spans kw content = Some spans /\ In sp spans.
Proof.
  induction kws as [|kw kws IH]; intros Hincl.
  - exists []. split; [reflexivity|].
    intros sp. split; [contradiction | now intros (? & ? & [] & _)].
  - destruct (keyword_spans_spec kw content (Hincl kw (or_introl eq_refl)))
      as (here & Hhere & _).
    destruct (IH (fun k Hk => Hincl k (or_intror Hk))) as (later & Hlater & Hin).
    exists (here ++ later). unfold keyword_pass; fold keyword_pass.
    rewrite Hhere, Hlater. split; [reflexivity|].
    intros sp. rewrite in_app_iff, Hin. split.
    + intros [H | (k & spans & Hk & Hs & Hsp)].
      * exists kw, here. now repeat split; [left|..].
      * exists k, spans. now repeat split; [right|..].
    + intros (k & spans & [<- | Hk] & Hs & Hsp).
      * left. congruence.
      * right. now exists k, spans.
Qed.

Lemma keyword_pass_total (content : string) :
  exists tags, keyword_pass kwlist content = Some tags.
Proof.
  destruct (keyword_pass_spec content kwlist (incl_refl _)) as (tags & H & _).
  now exists tags.
Qed.



(** ["for"] inside ["format"] and inside ["for_each"] is not tagged. *)
Example format_is_not_tagged :
  keyword_spans "for" "format" = Some [] /\
  keyword_spans "for" "for_each" = Some [] /\
  keyword_pass kwlist "format" = Some [].
Proof. repeat split. Qed.

(** * Further properties *)

(** ** Keyword ranges *)

(** X3.  Every range put under the tag ["keyword"] by a highlight pass is
    not empty and lies within the buffer. *)
Theorem keyword_tags_within_buffer (s : editor) (i j : nat) :
  In (i, j) (keyword_tags (fst (_highlight_syntax s))) ->
  i < j /\ j <= String.length (text s).
Proof.
  intros Hin.
  destruct (keyword_pass_spec (text s) kwlist (incl_refl _)) as (tags & Htags & Hin_tags).
  assert (Hpass : keyword_tags (fst (_highlight_syntax s)) = tags).
  { unfold _highlight_syntax.
    cbn [fst text set_keyword_tags set_after_id]. now rewrite Htags. }
  rewrite Hpass in Hin. apply Hin_tags in Hin as (kw & spans & Hkw & Hspans & Hin).
  destruct (keyword_spans_spec kw (text s) Hkw) as (spans' & Hspans' & Hiff).
  rewrite Hspans in Hspans'. inversion Hspans'; subst spans'.
  apply Hiff in Hin as [-> Hww].
  destruct (kwlist_keyword_like kw Hkw) as [Hne Hword].
  destruct (whole_word_extent _ Hne Hword _ _ Hww) as (Hend & Hpos & _).
  rewrite !length_list_ascii_of_string in *. lia.
Qed.

Lemma keyword_tags_within_buffer_witness :
  let s := set_text "if x: pass" (initial Files.Posix (fun _ => None) None) in
  In (6, 10) (keyword_tags (fst (_highlight_syntax s))) /\
  6 < 10 /\ 10 <= String.length (text s).
Proof.
  intros s.
  assert (Hin : In (6, 10) (keyword_tags (fst (_highlight_syntax s))))
    by (vm_compute; auto).
  split; [exact Hin | exact (keyword_tags_within_buffer s 6 10 Hin)].
Defined.

(** ** Frames of the callbacks *)

Lemma confirm_unsaved_changes_frame answer save_name (s : editor) :
  let s' := fst (_confirm_unsaved_changes answer save_name s) in
  console s' = console s /\ windows s' = windows s /\
  _autocomplete_window s' = _autocomplete_window s /\
  string_search_error s' = string_search_error s.
Proof.
  unfold _confirm_unsaved_changes, save_file, save_file_as, save_file_to.
  repeat split_match; repeat split.
Qed.

Lemma open_file_frame answer save_name open_name (s : editor) :
  let s' := fst (open_file answer save_name open_name s) in
  console s' = console s /\ windows s' = windows s /\
  _autocomplete_window s' = _autocomplete_window s /\
  timers s' = timers s /\ next_timer s' = next_timer s.
Proof.
  unfold open_file.
  pose proof (confirm_unsaved_changes_frame answer save_name s) as (Hc & Hw & Ha & _).
  pose proof (confirm_unsaved_changes_keeps_timers answer save_name s) as (Ht & Hn & _).
  destruct (_confirm_unsaved_changes answer save_name s) as [s1 [|]];
    cbn [negb fst] in *; [|now repeat split].
  destruct (PyStr.truthy open_name); [|now repeat split].
  destruct (Files.read_text open_name _) as [data|exc]; [|now repeat split].
  highlight_by highlight_syntax_eq.
  cbn [string_search_error set_keyword_tags set_after_id set_file_path
         text_insert text_delete_all set_modified set_text].
  destruct (string_search_error s1); now repeat split.
Qed.

Lemma insert_example_frame selection (s : editor) :
  let s' := fst (_insert_example selection s) in
  console s' = console s /\ windows s' = windows s /\
  _autocomplete_window s' = _autocomplete_window s /\
  timers s' = timers s /\ next_timer s' = next_timer s /\
  files s' = files s /\ file_path s' = file_path s.
Proof.
  unfold _insert_example.
  destruct selection as [label|]; [|now repeat split].
  destruct (dict_get CODE_EXAMPLES label) as [code|]; [|now repeat split].
  destruct (negb (PyStr.truthy code)); [now repeat split|].
  highlight_by highlight_syntax_eq. now repeat split.
Qed.

Lemma fire_frame (id : nat) (s : editor) :
  console (fire id s) = console s /\ windows (fire id s) = windows s /\
  _autocomplete_window (fire id s) = _autocomplete_window s /\
  files (fire id s) = files s.
Proof.
  unfold fire. destruct (find _ (timers s)) as [[n cb]|]; [|now repeat split].
  destruct cb.
  - highlight_by highlight_syntax_eq. now repeat split.
  - unfold _show_quiz_question. now split_match.
Qed.

(** ** The console *)

(** One callback other than [clear_console] adds text at the end of the
    console or leaves it as it is. *)
Lemma step_console exec (a : action) (s : editor) :
  is_clear_console a = false ->
  exists added, console (step exec a s) = (console s ++ added)%string.
Proof.
  intros Hclear.
  assert (Hsame : forall s', console s' = console s ->
                        exists added, console s' = (console s ++ added)%string).
  { intros s' ->. exists "". now rewrite append_empty_r. }
  destruct a; try discriminate Hclear; cbn [step].
  - now apply Hsame.
  - apply Hsame. unfold _on_text_change, after. now split_match.
  - apply Hsame, fire_frame.
  - apply Hsame, insert_example_frame.
  - now apply Hsame.
  - apply Hsame. unfold _check_quiz, after. repeat split_match; reflexivity.
  - apply Hsame. unfold _show_autocomplete. repeat split_match; reflexivity.
  - apply Hsame. unfold _close_autocomplete. now split_match.
  - apply Hsame. unfold new_file.
    pose proof (confirm_unsaved_changes_frame answer0 save_name s) as (H & _).
    destruct (_confirm_unsaved_changes answer0 save_name s) as [s1 [|]]; exact H.
  - apply Hsame, open_file_frame.
  - apply Hsame. unfold save_file, save_file_as, save_file_to.
    repeat split_match; reflexivity.
  - apply Hsame. unfold save_file_as, save_file_to. now split_match.
  - unfold run_code. rewrite execute_code_console. eexists. reflexivity.
  - unfold run_selection. destruct selection as [code|]; [|now apply Hsame].
    rewrite execute_code_console. eexists. reflexivity.
Qed.

(** X12.  The console only grows: along callbacks none of which is
    [clear_console], what the console held before is the beginning of what
    it holds after. *)
Theorem console_is_append_only exec (actions : list action) (s : editor) :
  forallb (fun a => negb (is_clear_console a)) actions = true ->
  String.prefix (console s) (console (run exec actions s)) = true.
Proof.
  intros Hactions.
  assert (H : exists added, console (run exec actions s) = (console s ++ added)%string).
  { revert s Hactions. induction actions as [|a actions IH]; intros s Hall.
    - exists "". cbn. now rewrite append_empty_r.
    - cbn in Hall. apply andb_prop in Hall as [Ha Hall]. apply negb_true_iff in Ha.
      destruct (step_console exec a s Ha) as [added1 E1].
      destruct (IH (step exec a s) Hall) as [added2 E2].
      exists (added1 ++ added2)%string. cbn [run fold_left] in *.
      unfold run in E2. now rewrite E2, E1, append_assoc. }
  destruct H as [added ->]. apply prefix_append.
Qed.

Lemma console_is_append_only_witness :
  let s := set_console "earlier" (initial Files.Posix (fun _ => None) None) in
  let s' := run Fragment.exec [Edit "print('hi')"; RunCode; NewFile (Some false) ""] s in
  String.prefix "earlier" (console s') = true /\
  console s' = ("earlier" ++ "hi" ++ PyStr.nl)%string.
Proof.
  intros s s'. split; [|reflexivity].
  exact (console_is_append_only Fragment.exec
           [Edit "print('hi')"; RunCode; NewFile (Some false) ""] s eq_refl).
Defined.

(** ** Files are written by saves only *)

Lemma step_files exec (a : action) (s : editor) :
  may_write_files a = false -> files (step exec a s) = files s.
Proof.
  intros Hwrite.
  destruct a as [ | | | | | | | |answer0 save_name|answer0 save_name open_name
                | | | | | ];
    try discriminate Hwrite; cbn [step].
  - reflexivity.
  - unfold _on_text_change, after. now split_match.
  - apply fire_frame.
  - apply insert_example_frame.
  - reflexivity.
  - unfold _check_quiz, after. repeat split_match; reflexivity.
  - unfold _show_autocomplete. repeat split_match; reflexivity.
  - unfold _close_autocomplete. now split_match.
  - unfold new_file, _confirm_unsaved_changes.
    destruct answer0 as [[|]|]; [discriminate Hwrite| |];
      now destruct (modified s).
  - unfold open_file, _confirm_unsaved_changes.
    destruct answer0 as [[|]|]; [discriminate Hwrite| |];
      destruct (modified s); cbn [negb fst]; try reflexivity;
      (destruct (PyStr.truthy open_name); [|reflexivity]);
      (destruct (Files.read_text open_name _) as [data|exc]; [|reflexivity]);
      highlight_by highlight_syntax_eq; cbn;
      now destruct (string_search_error s).
  - reflexivity.
Qed.

(** X11.  The editor's own callbacks write no file unless the user saves:
    along callbacks none of which is a save, a yes to the unsaved-changes
    prompt or a run of the user's program, the files stay what they were. *)
Theorem files_change_only_by_saving exec (actions : list action) (s : editor) :
  forallb (fun a => negb (may_write_files a)) actions = true ->
  files (run exec actions s) = files s.
Proof.
  revert s. induction actions as [|a actions IH]; intros s Hall; [reflexivity|].
  cbn in Hall. apply andb_prop in Hall as [Ha Hall]. apply negb_true_iff in Ha.
  cbn [run fold_left]. unfold run in IH. rewrite (IH _ Hall).
  now apply step_files.
Qed.

Lemma files_change_only_by_saving_witness :
  let s := set_files (fun p => if String.eqb p "a.py" then Some "x = 1" else None)
             (initial Files.Posix (fun _ => None) None) in
  let s' := run Fragment.exec
              [OpenFile None "" "a.py"; Edit "y = 2"; NewFile (Some false) "";
               InsertExample (Some "Hello"); OpenFile (Some false) "" "a.py"] s in
  files s' "a.py" = Some "x = 1" /\ text s' = "x = 1".
Proof.
  intros s s'. split; [|reflexivity].
  unfold s'.
  now rewrite (files_change_only_by_saving Fragment.exec
                 [OpenFile None "" "a.py"; Edit "y = 2"; NewFile (Some false) "";
                  InsertExample (Some "Hello"); OpenFile (Some false) "" "a.py"]
                 s eq_refl).
Defined.

(** ** The autocomplete popup *)

Lemma one_popup_same (s s' : editor) :
  windows s' = windows s -> _autocomplete_window s' = _autocomplete_window s ->
  one_popup s -> one_popup s'.
Proof. unfold one_popup. now intros -> ->. Qed.

Lemma one_popup_show word bbox (s : editor) :
  one_popup s -> one_popup (fst (_show_autocomplete word bbox s)).
Proof.
  intros H.
  assert (Hgone : windows (match _autocomplete_window s with
                           | Some w => destroy w s
                           | None => s
                           end) = []).
  { destruct H as [E | (w & E & Ew)].
    - destruct (_autocomplete_window s); cbn; now rewrite E.
    - rewrite Ew. cbn. rewrite E. cbn. now rewrite Nat.eqb_refl. }
  unfold _show_autocomplete.
  destruct (autocomplete_matches word) as [|m ms]; cbn [fst];
    [now left|].
  destruct bbox; cbn [negb fst]; [|now left].
  right. eexists. cbn. rewrite Hgone. split; reflexivity.
Qed.

Lemma one_popup_close (s : editor) : one_popup s -> one_popup (_close_autocomplete s).
Proof.
  intros H. left. unfold _close_autocomplete.
  destruct H as [E | (w & E & Ew)].
  - destruct (_autocomplete_window s); cbn; now rewrite E.
  - rewrite Ew. cbn. rewrite E. cbn. now rewrite Nat.eqb_refl.
Qed.

Lemma one_popup_step exec (a : action) (s : editor) :
  one_popup s -> one_popup (step exec a s).
Proof.
  intros H.
  destruct a as [ | | | | | |word bbox| |answer0 save_name| | | | | | ];
    cbn [step];
    try (now apply one_popup_show); try (now apply one_popup_close);
    (eapply one_popup_same; [| |exact H]).
  all: try reflexivity.
  all: try apply fire_frame; try apply insert_example_frame;
    try apply open_file_frame.
  all: try (unfold _on_text_change, after; now split_match).
  all: try (unfold _check_quiz, after; repeat split_match; reflexivity).
  all: try (unfold new_file;
            pose proof (confirm_unsaved_changes_frame answer0 save_name s)
              as (_ & Hw & Ha & _);
            destruct (_confirm_unsaved_changes answer0 save_name s) as [s1 [|]];
            assumption).
  all: try (unfold save_file, save_file_as, save_file_to;
            repeat split_match; reflexivity).
  all: unfold run_code, run_selection, _execute_code;
    repeat split_match; reflexivity.
Qed.

(** X8.  At any moment at most one autocomplete popup exists, and when one
    exists it is the window [_autocomplete_window] names: a new trigger
    destroys the popup of the one before. *)
Theorem at_most_one_popup exec os files err (actions : list action) :
  let s := run exec actions (initial os files err) in
  length (windows s) <= 1 /\
  forall w, In w (windows s) -> _autocomplete_window s = Some w.
Proof.
  intros s.
  assert (H : one_popup s).
  { subst s. induction actions as [|a actions IH] using rev_ind.
    - left. unfold initial. highlight_by highlight_syntax_eq. reflexivity.
    - rewrite run_app. cbn [run fold_left]. now apply one_popup_step. }
  destruct H as [E | (w & E & Ew)]; rewrite E; cbn.
  - split; [lia | contradiction].
  - split; [lia|]. now intros w' [<- | []].
Qed.

(** ** The quiz and its timer *)

Lemma timers_fresh_step exec (a : action) (s : editor) :
  timers_fresh s -> timers_fresh (step exec a s).
Proof.
  intros Hs.
  assert (Hsame : forall s', timers s' = timers s -> next_timer s' = next_timer s ->
                        timers_fresh s').
  { unfold timers_fresh. intros s' -> ->. exact Hs. }
  assert (Hmore : forall ts cb (s' : editor),
             (forall t, In t ts -> In t (timers s)) ->
             timers s' = ts ++ [(next_timer s, cb)] ->
             next_timer s' = S (next_timer s) -> timers_fresh s').
  { intros ts cb s' Hts Et En id c. rewrite Et, En. intros Hin.
    apply in_app_iff in Hin as [Hin | [E | []]].
    - apply Hts, Hs in Hin. lia.
    - inversion E. lia. }
  assert (Hfilter : forall f t, In t (filter f (timers s)) -> In t (timers s)).
  { intros f t Hin. now apply filter_In in Hin. }
  destruct (calls_highlight_directly a) eqn:Hdirect.
  - destruct a; try discriminate Hdirect; cbn [step].
    + apply Hsame; apply insert_example_frame.
    + apply Hsame; apply open_file_frame.
  - destruct a as [ | |id| | | | | | | | | | | | ]; try discriminate Hdirect;
      try (destruct (step_keeps_timers exec _ s Hdirect
                       ltac:(intros; discriminate) ltac:(intros; discriminate)
                       ltac:(intros; discriminate)) as (Et & En & _);
           now apply Hsame);
      cbn [step].
    + unfold _on_text_change, after.
      destruct (_after_id s) as [id|].
      * eapply (Hmore (timers (after_cancel id s)) HighlightSyntax);
          [apply Hfilter | reflexivity | reflexivity].
      * eapply (Hmore (timers s) HighlightSyntax); [auto | reflexivity | reflexivity].
    + unfold fire.
      destruct (find _ (timers s)) as [[n cb]|]; [|exact Hs].
      assert (Hc : timers_fresh (after_cancel id s)).
      { intros i c Hin. apply (Hfilter _ _) in Hin. now apply Hs in Hin. }
      destruct cb.
      * highlight_by highlight_syntax_eq. exact Hc.
      * unfold _show_quiz_question. split_match; exact Hc.
    + unfold _check_quiz, after.
      destruct (nth_error QUIZ_QUESTIONS _); [|exact Hs].
      destruct (String.eqb _ _);
        eapply (Hmore (timers s) ShowQuizQuestion); auto.
Qed.

Lemma run_timers_fresh exec os files err (actions : list action) :
  timers_fresh (run exec actions (initial os files err)).
Proof.
  induction actions as [|a actions IH] using rev_ind.
  - unfold initial. highlight_by highlight_syntax_eq. intros id cb [].
  - rewrite run_app. cbn [run fold_left]. now apply timers_fresh_step.
Qed.

Lemma run_quiz_index exec os files err (actions : list action) :
  _quiz_index (run exec actions (initial os files err)) < length QUIZ_QUESTIONS.
Proof.
  induction actions as [|a actions IH] using rev_ind.
  - unfold initial. cbn [run fold_left].
    rewrite highlight_syntax_quiz_index. cbn. lia.
  - rewrite run_app. cbn [run fold_left].
    destruct (step_quiz_index exec a (run exec actions (initial os files err))) as [H|H];
      unfold run in *; rewrite H; [exact IH|].
    apply Nat.mod_upper_bound. discriminate.
Qed.

Lemma find_fresh_timer (ts : list (nat * callback)) (id : nat) (cb : callback) :
  (forall i c, In (i, c) ts -> i < id) ->
  find (fun t => fst t =? id) (ts ++ [(id, cb)]) = Some (id, cb).
Proof.
  induction ts as [|[i c] ts IH]; intros Hts; cbn.
  - now rewrite Nat.eqb_refl.
  - assert (i < id) by (eapply Hts; now left).
    destruct (Nat.eqb_spec i id); [lia|].
    apply IH. intros i' c' Hin. eapply Hts. right. exact Hin.
Qed.

(** X10.  In every state the event loop reaches, checking an answer and
    then letting the timer of that check fire shows the question the index
    names after the check (the next one after a right answer, the same one
    after a wrong answer), with the feedback removed and the entry emptied,
    whatever was typed into the entry meanwhile. *)
Theorem quiz_redisplays_current_question exec os files err
  (actions : list action) (typed_meanwhile : string) :
  let s := run exec actions (initial os files err) in
  let checked := fst (_check_quiz s) in
  let shown := fire (next_timer s) (set_quiz_entry typed_meanwhile checked) in
  exists question,
    nth_error QUIZ_QUESTIONS (_quiz_index checked) = Some question /\
    _quiz_index shown = _quiz_index checked /\
    quiz_prompt shown = prompt question /\
    quiz_entry shown = "" /\
    quiz_feedback shown = "".
Proof.
  intros s checked shown.
  pose proof (run_quiz_index exec os files err actions) as Hidx.
  pose proof (run_timers_fresh exec os files err actions) as Hfresh.
  fold s in Hidx, Hfresh.
  destruct (proj1 (quiz_index_in_range _) Hidx) as [q Hq].
  assert (Hchecked : exists s2,
             checked = fst (after ShowQuizQuestion s2) /\
             timers s2 = timers s /\ next_timer s2 = next_timer s /\
             _quiz_index s2 < length QUIZ_QUESTIONS).
  { subst checked. unfold _check_quiz. rewrite Hq.
    destruct (String.eqb _ _); eexists; (split; [reflexivity|]);
      cbn [timers next_timer _quiz_index set_quiz_feedback set_quiz_index];
      repeat split; try exact Hidx.
    apply Nat.mod_upper_bound. discriminate. }
  destruct Hchecked as (s2 & Echecked & Et & En & Hidx2).
  destruct (proj1 (quiz_index_in_range _) Hidx2) as [q2 Hq2].
  exists q2.
  assert (Eidx : _quiz_index checked = _quiz_index s2) by now rewrite Echecked.
  rewrite Eidx. split; [exact Hq2|].
  subst shown. unfold fire.
  assert (Efind : find (fun t => fst t =? next_timer s)
                    (timers (set_quiz_entry typed_meanwhile checked))
                  = Some (next_timer s, ShowQuizQuestion)).
  { rewrite Echecked. unfold after. cbn. rewrite Et, En.
    apply find_fresh_timer. exact Hfresh. }
  rewrite Efind. unfold _show_quiz_question.
  cbn [_quiz_index after_cancel set_timers set_quiz_entry].
  rewrite Eidx, Hq2. cbn. repeat split. exact Eidx.
Qed.

(** ** Examples and files *)






(** ** Saving and opening any buffer *)

Lemma is_lf_eq (c : ascii) : Files.is_lf c = true -> c = ascii_of_nat 10.
Proof.
  unfold Files.is_lf. intros H. apply Nat.eqb_eq in H.
  rewrite <- (ascii_nat_embedding c). now rewrite H.
Qed.

Lemma in_range_not_lf (lo hi : nat) (c : ascii) :
  11 <= lo -> Files.in_range lo hi c = true -> Files.is_lf c = false.
Proof.
  unfold Files.in_range, Files.is_lf. intros Hlo H.
  apply andb_prop in H as [H _]. apply Nat.leb_le in H.
  apply Nat.eqb_neq. lia.
Qed.

Lemma not_ascii_not_lf (c : ascii) :
  Files.in_range 0 127 c = false -> Files.is_lf c = false.
Proof.
  intros H. destruct (Files.is_lf c) eqn:E; [|reflexivity].
  apply is_lf_eq in E. subst c. discriminate H.
Qed.

(** What reading gives has no carriage return. *)
Lemma newlines_in_no_cr (bytes : string) :
  Files.no_cr (Files.newlines_in bytes) = true.
Proof.
  remember (String.length bytes) as n eqn:Hn.
  revert bytes Hn. induction n as [n IH] using lt_wf_ind. intros bytes Hn.
  destruct bytes as [|c s']; [reflexivity|]. cbn [Files.newlines_in].
  cbn [String.length] in Hn.
  destruct (Files.is_cr c) eqn:Ecr.
  - destruct s' as [|c' s'']; [reflexivity|].
    cbn [String.length] in Hn.
    destruct (Files.is_lf c') eqn:Elf; cbn [Files.no_cr].
    + apply is_lf_eq in Elf. subst c'. cbn.
      apply (IH (String.length s'')); [lia | reflexivity].
    + apply (IH (String.length (String c' s''))); [cbn; lia | reflexivity].
  - cbn [Files.no_cr]. rewrite Ecr. cbn [negb andb].
    apply (IH (String.length s')); [lia | reflexivity].
Qed.

(** Writing line feeds as [os.linesep] keeps the bytes well-formed. *)
Lemma newlines_out_utf8_ok (os : Files.platform) (t : string) :
  Files.utf8_ok t = true ->
  Files.utf8_ok (Files.newlines_out (Files.linesep os) t) = true.
Proof.
  remember (String.length t) as n eqn:Hn.
  revert t Hn. induction n as [n IH] using lt_wf_ind. intros t Hn Hok.
  destruct t as [|c0 s1]; [reflexivity|].
  cbn [String.length] in Hn. cbn [Files.utf8_ok] in Hok.
  cbn [Files.newlines_out].
  destruct (Files.in_range 0 127 c0) eqn:E0.
  { assert (Hrest : Files.utf8_ok (Files.newlines_out (Files.linesep os) s1) = true)
      by (apply (IH (String.length s1)); [lia | reflexivity | exact Hok]).
    destruct (Files.is_lf c0) eqn:Elf.
    - destruct os; cbn; exact Hrest.
    - cbn [Files.utf8_ok]. now rewrite E0. }
  rewrite (not_ascii_not_lf c0 E0). cbn [Files.utf8_ok]. rewrite E0.
  destruct (Files.in_range 194 223 c0) eqn:E2.
  { destruct s1 as [|c1 s2]; [discriminate|].
    apply andb_prop in Hok as [H1 Hok]. cbn [String.length] in Hn.
    cbn [Files.newlines_out]. rewrite (in_range_not_lf 128 191 _ ltac:(lia) H1), H1.
    apply (IH (String.length s2)); [lia | reflexivity | exact Hok]. }
  destruct (Files.in_range 224 239 c0) eqn:E3.
  { destruct s1 as [|c1 [|c2 s3]]; try discriminate.
    apply andb_prop in Hok as [H12 Hok]. apply andb_prop in H12 as [H1 H2].
    cbn [String.length] in Hn.
    assert (L1 : Files.is_lf c1 = false).
    { destruct (Files.in_range 224 224 c0);
        [|destruct (Files.in_range 237 237 c0)];
        (eapply in_range_not_lf; [|exact H1]; lia). }
    cbn [Files.newlines_out].
    rewrite L1, (in_range_not_lf 128 191 _ ltac:(lia) H2), H1, H2.
    apply (IH (String.length s3)); [lia | reflexivity | exact Hok]. }
  destruct (Files.in_range 240 244 c0) eqn:E4; [|discriminate].
  destruct s1 as [|c1 [|c2 [|c3 s4]]]; try discriminate.
  apply andb_prop in Hok as [H123 Hok]. apply andb_prop in H123 as [H12 H3].
  apply andb_prop in H12 as [H1 H2]. cbn [String.length] in Hn.
  assert (L1 : Files.is_lf c1 = false).
  { destruct (Files.in_range 240 240 c0);
      [|destruct (Files.in_range 244 244 c0)];
      (eapply in_range_not_lf; [|exact H1]; lia). }
  cbn [Files.newlines_out].
  rewrite L1, (in_range_not_lf 128 191 _ ltac:(lia) H2),
    (in_range_not_lf 128 191 _ ltac:(lia) H3), H1, H2, H3.
  apply (IH (String.length s4)); [lia | reflexivity | exact Hok].
Qed.

(** X5.  For every buffer whose text is well-formed, saving it to [path]
    and opening [path] gives the buffer the text it had exactly when that
    text holds no carriage return, on both platforms; a carriage return
    comes back as a line feed. *)
Theorem save_then_open_roundtrip_iff_no_cr (s : editor) (path : string)
  (answer : option bool) (save_name : string) :
  Files.utf8_ok (text s) = true ->
  PyStr.truthy path = true ->
  file_path s = None \/ file_path s = Some path ->
  let reopened := fst (open_file answer save_name path (save_file path s)) in
  text reopened = Files.newlines_in (Files.newlines_out (Files.linesep (os s)) (text s)) /\
  (text reopened = text s <-> Files.no_cr (text s) = true).
Proof.
  intros Hok Hpath Hwhere reopened.
  assert (Hsaved : save_file path s = save_file_to path (set_file_path (Some path) s)).
  { unfold save_file, save_file_as.
    destruct Hwhere as [-> | E]; [now rewrite Hpath|].
    rewrite E. unfold save_file_to. cbn. destruct s; cbn in *. now subst. }
  assert (Htext : text reopened
                  = Files.newlines_in
                      (Files.newlines_out (Files.linesep (os s)) (text s))).
  { subst reopened. rewrite Hsaved.
    unfold open_file, _confirm_unsaved_changes, save_file_to.
    cbn [modified set_modified negb]. rewrite Hpath.
    unfold Files.read_text, Files.write_text.
    cbn [files text os text_delete_all set_modified set_text set_files set_file_path].
    rewrite String.eqb_refl, (newlines_out_utf8_ok (os s) _ Hok).
    highlight_by highlight_syntax_eq.
    cbn [string_search_error set_keyword_tags set_after_id set_file_path
           text_insert text_delete_all set_modified set_text set_files].
    destruct (string_search_error s); cbn; apply append_empty_r. }
  split; [exact Htext|]. rewrite Htext. split.
  - intros E. rewrite <- E. apply newlines_in_no_cr.
  - apply newlines_roundtrip.
Qed.

Lemma save_then_open_roundtrip_iff_no_cr_witness :
  let lines := ("for i in range(3):" ++ PyStr.nl ++ "    print(i)" ++ PyStr.nl)%string in
  let s := set_text lines (initial Files.Windows (fun _ => None) None) in
  text (fst (open_file None "" "loop.py" (save_file "loop.py" s))) = lines.
Proof.
  intros lines s.
  destruct (save_then_open_roundtrip_iff_no_cr s "loop.py" None "" eq_refl eq_refl
              (or_introl eq_refl)) as [_ Hiff].
  apply Hiff. reflexivity.
Defined.

(** ** The items of the autocomplete popup *)

Lemma ltb_irrefl (x : string) : String.ltb x x = false.
Proof.
  unfold String.ltb. pose proof (String.compare_antisym x x) as H.
  destruct (String.compare x x); try reflexivity; discriminate H.
Qed.

Lemma ascending_sorted (l : list string) :
  ascending l = true -> StronglySorted (fun a b => String.ltb a b = true) l.
Proof.
  induction l as [|x l IH]; cbn; intros H; constructor.
  - apply IH. now apply andb_prop in H.
  - apply andb_prop in H as [H _]. apply Forall_forall. now apply forallb_forall.
Qed.

Lemma sorted_filter {A : Type} (R : A -> A -> Prop) (f : A -> bool) (l : list A) :
  StronglySorted R l -> StronglySorted R (filter f l).
Proof.
  induction 1 as [|x l Hl IH Hx]; cbn; [constructor|].
  destruct (f x); [|exact IH]. constructor; [exact IH|].
  apply Forall_forall. intros y Hy. apply filter_In in Hy as [Hy _].
  rewrite Forall_forall in Hx. now apply Hx.
Qed.

Lemma sorted_NoDup (l : list string) :
  StronglySorted (fun a b => String.ltb a b = true) l -> NoDup l.
Proof.
  induction 1 as [|x l Hl IH Hx]; constructor; [|exact IH].
  intros Hin. rewrite Forall_forall in Hx. specialize (Hx x Hin).
  now rewrite ltb_irrefl in Hx.
Qed.

(** X9.  For every current word the items offered by the popup stand in
    ascending order of their code points and no item comes twice (so each
    [tree.insert] gets an item id that is new); the empty word offers the
    whole suggestion list. *)
Theorem autocomplete_items_ascending_without_repeats (word : string) :
  StronglySorted (fun a b => String.ltb a b = true) (autocomplete_matches word) /\
  NoDup (autocomplete_matches word) /\
  autocomplete_matches "" = AUTOCOMPLETE_SUGGESTIONS.
Proof.
  assert (H : StronglySorted (fun a b => String.ltb a b = true)
                (autocomplete_matches word)).
  { unfold autocomplete_matches. apply sorted_filter, ascending_sorted.
    reflexivity. }
  split; [exact H|]. split; [now apply sorted_NoDup|].
  unfold autocomplete_matches. apply forallb_filter_id.
  apply forallb_forall. intros item _. unfold PyStr.startswith. now destruct item.
Qed.

(** ** The gutter *)





(** ** The find dialog *)

Lemma starts_with_iff (needle rest : list ascii) :
  starts_with needle rest = true <-> firstn (length needle) rest = needle.
Proof.
  revert rest. induction needle as [|a needle IH]; intros rest; cbn; [tauto|].
  destruct rest as [|c rest]; [split; discriminate|].
  rewrite andb_true_iff, IH. split.
  - intros [E ->]. apply Ascii.eqb_eq in E. now subst.
  - intros [= -> E]. rewrite E. split; [apply Ascii.eqb_refl | reflexivity].
Qed.

Lemma exact_search_spec (needle rest : list ascii) :
  match exact_search needle rest with
  | Some k =>
      starts_with needle (skipn k rest) = true /\
      forall j, j < k -> starts_with needle (skipn j rest) = false
  | None => forall j, j <= length rest -> starts_with needle (skipn j rest) = false
  end.
Proof.
  induction rest as [|c rest IH]; cbn [exact_search].
  - destruct (starts_with needle []) eqn:E.
    + split; [exact E | intros j Hj; lia].
    + intros j Hj. now destruct j.
  - destruct (starts_with needle (c :: rest)) eqn:E.
    + split; [exact E | intros j Hj; lia].
    + destruct (exact_search needle rest) as [k|]; cbn [option_map].
      * destruct IH as [Hk Hbefore]. split; [exact Hk|].
        intros [|j] Hj; [exact E | apply Hbefore; lia].
      * intros [|j] Hj; [exact E | apply IH; cbn in Hj; lia].
Qed.

(** X14.  One press of Find in the find dialog, for a text that is not
    empty: the first place at or after the cursor where the text is written
    becomes the selection and the cursor goes to its end; when the text is
    not written at or after the cursor (the search does not wrap around), or
    the entry is empty, the selection and the cursor stay as they are. *)
Theorem find_next_selects_next_occurrence (needle content : string) (m : marks) :
  let n := list_ascii_of_string needle in
  let t := list_ascii_of_string content in
  let m' := find_next needle content m in
  (exists start,
     needle <> "" /\ insert m <= start /\ occurs_at n t start /\
     (forall k, insert m <= k < start -> ~ occurs_at n t k) /\
     sel m' = Some (start, start + String.length needle) /\
     insert m' = start + String.length needle /\
     insert m < insert m') \/
  (m' = m /\
   (needle = "" \/ forall k, insert m <= k -> ~ occurs_at n t k)).
Proof.
  intros n t m'. subst m'. unfold find_next.
  destruct needle as [|a needle]; [right; split; [reflexivity | now left]|].
  cbn [PyStr.truthy negb]. fold n t.
  pose proof (exact_search_spec n (skipn (insert m) t)) as Hspec.
  destruct (exact_search n (skipn (insert m) t)) as [k|]; cbn [option_map].
  - destruct Hspec as [Hk Hbefore]. left. exists (insert m + k).
    split; [discriminate|]. split; [lia|].
    rewrite skipn_skipn, starts_with_iff in Hk.
    split; [unfold occurs_at; now rewrite Nat.add_comm|].
    split.
    + intros j Hj Hocc. specialize (Hbefore (j - insert m) ltac:(lia)).
      rewrite skipn_skipn in Hbefore.
      replace (j - insert m + insert m) with j in Hbefore by lia.
      apply starts_with_iff in Hocc. congruence.
    + cbn [sel insert String.length]. repeat split. lia.
  - right. split; [reflexivity|]. right. intros j Hj Hocc.
    unfold occurs_at in Hocc.
    destruct (Nat.le_gt_cases j (length t)) as [Hle | Hgt].
    + specialize (Hspec (j - insert m)). rewrite length_skipn in Hspec.
      specialize (Hspec ltac:(lia)). rewrite skipn_skipn in Hspec.
      replace (j - insert m + insert m) with j in Hspec by lia.
      apply starts_with_iff in Hocc. congruence.
    + rewrite skipn_all2 in Hocc by lia. subst n. cbn in Hocc.
      discriminate Hocc.
Qed.

(** ** The comment loop of the highlight pass *)

Lemma find_char_spec (p : ascii -> bool) (rest : list ascii) :
  match find_char p rest with
  | Some k =>
      (exists c, nth_error rest k = Some c /\ p c = true) /\
      forall j c, j < k -> nth_error rest j = Some c -> p c = false
  | None => forall j c, nth_error rest j = Some c -> p c = false
  end.
Proof.
  induction rest as [|c rest IH]; cbn [find_char].
  - intros [|j] c' H; discriminate H.
  - destruct (p c) eqn:E.
    + split; [now exists c | intros j c' Hj; lia].
    + destruct (find_char p rest) as [k|]; cbn [option_map].
      * destruct IH as [Hk Hbefore]. split; [exact Hk|].
        intros [|j] c' Hj H; [now inversion H; subst | eapply Hbefore; [|exact H]; lia].
      * intros [|j] c' H; [now inversion H; subst | eapply IH, H].
Qed.

Section CommentScan.

Variable content : list ascii.

Lemma comment_search_spec (start : nat) :
  match comment_search content start with
  | Some found =>
      start <= found /\ hash_at content found /\
      forall q, start <= q < found -> ~ hash_at content q
  | None => forall q, start <= q -> ~ hash_at content q
  end.
Proof.
  unfold comment_search, hash_at.
  pose proof (find_char_spec is_hash (skipn start content)) as H.
  destruct (find_char is_hash (skipn start content)) as [k|]; cbn [option_map].
  - destruct H as [(c & Hc & Hhash) Hbefore]. rewrite nth_error_skipn in Hc.
    split; [lia|]. split; [now exists c|].
    intros q Hq (c' & Hc' & Hhash').
    replace q with (start + (q - start)) in Hc' by lia.
    rewrite <- nth_error_skipn in Hc'.
    rewrite (Hbefore (q - start) c' ltac:(lia) Hc') in Hhash'. discriminate.
  - intros q Hq (c' & Hc' & Hhash').
    replace q with (start + (q - start)) in Hc' by lia.
    rewrite <- nth_error_skipn in Hc'.
    rewrite (H _ _ Hc') in Hhash'. discriminate.
Qed.

Lemma line_end_spec (found : nat) :
  hash_at content found ->
  found < line_end content found <= length content /\
  (forall r c, found <= r < line_end content found ->
     nth_error content r = Some c -> Files.is_lf c = false) /\
  (line_end content found < length content ->
   exists c, nth_error content (line_end content found) = Some c /\
             Files.is_lf c = true).
Proof.
  intros (h & Hh & Hhash). unfold line_end.
  assert (Hlt : found < length content) by (apply nth_error_Some; congruence).
  assert (Hnot : Files.is_lf h = false).
  { unfold is_hash in Hhash. unfold Files.is_lf.
    apply Nat.eqb_eq in Hhash. rewrite Hhash. reflexivity. }
  pose proof (find_char_spec Files.is_lf (skipn found content)) as H.
  destruct (find_char Files.is_lf (skipn found content)) as [k|].
  - destruct H as [(c & Hc & Hlf) Hbefore]. rewrite nth_error_skipn in Hc.
    assert (k <> 0).
    { intros ->. rewrite Nat.add_0_r in Hc. congruence. }
    assert (found + k < length content) by (apply nth_error_Some; congruence).
    split; [lia|]. split.
    + intros r c' Hr Hc'. apply (Hbefore (r - found) c'); [lia|].
      rewrite nth_error_skipn. now replace (found + (r - found)) with r by lia.
    + intros _. now exists c.
  - split; [lia|]. split; [|lia].
    intros r c' Hr Hc'. apply (H (r - found) c').
    rewrite nth_error_skipn. now replace (found + (r - found)) with r by lia.
Qed.

Lemma comment_loop_spec (fuel : nat) :
  forall start,
    length content - start < fuel ->
    exists spans,
      comment_loop fuel content start = Some spans /\
      forall p,
        covered spans p <->
        p < length content /\
        exists q, start <= q <= p /\ hash_at content q /\ no_lf_between content q p.
Proof.
  induction fuel as [|fuel IH]; intros start Hfuel; [lia|].
  cbn [comment_loop]. pose proof (comment_search_spec start) as Hsearch.
  destruct (comment_search content start) as [found|].
  - destruct Hsearch as (Hle & Hhash & Hbefore).
    destruct (line_end_spec found Hhash) as (Hend & Hline & Hlf).
    set (e := line_end content found) in *.
    destruct (IH e ltac:(lia)) as (spans & -> & Hspans).
    exists ((found, e) :: spans). split; [reflexivity|].
    intros p. split.
    + intros (i & j & [E | Hin] & Hp).
      * inversion E; subst i j. split; [lia|]. exists found.
        split; [lia|]. split; [exact Hhash|].
        intros r c Hr. apply Hline. lia.
      * destruct (proj1 (Hspans p)) as (Hlen & q & Hq & Hq' & Hno);
          [now exists i, j|].
        split; [exact Hlen|]. exists q. split; [lia | now split].
    + intros (Hlen & q & Hq & Hq' & Hno).
      assert (found <= q).
      { destruct (Nat.le_gt_cases found q); [assumption|].
        now destruct (Hbefore q ltac:(lia)). }
      destruct (Nat.lt_ge_cases p e) as [Hpe | Hpe].
      * exists found, e. split; [now left | lia].
      * destruct (Hlf ltac:(lia)) as (c & Hc & Hc').
        assert (e < q).
        { destruct (Nat.lt_ge_cases e q); [assumption|].
          rewrite (Hno e c ltac:(lia) Hc) in Hc'. discriminate. }
        destruct (proj2 (Hspans p)) as (i & j & Hin & Hp).
        { split; [exact Hlen|]. exists q. split; [lia | now split]. }
        exists i, j. split; [now right | exact Hp].
  - exists []. split; [reflexivity|].
    intros p. split; [now intros (i & j & [] & _)|].
    intros (_ & q & Hq & Hq' & _). now destruct (Hsearch q ltac:(lia)).
Qed.

End CommentScan.

(** X4.  For every buffer the comment loop of the highlight pass comes to
    its end, and a position is under the tag ["comment"] exactly when a [#]
    stands at it or before it on its line: every line is tagged from its first
    [#] to its end, also where the [#] is inside a string literal. *)
Theorem comment_tag_covers_rest_of_line (content : string) :
  exists spans,
    comment_spans content = Some spans /\
    forall p, covered spans p <-> after_hash (list_ascii_of_string content) p.
Proof.
  destruct (comment_loop_spec (list_ascii_of_string content)
              (S (length (list_ascii_of_string content))) 0 ltac:(lia))
    as (spans & Hloop & Hspans).
  exists spans. split; [exact Hloop|].
  intros p. rewrite Hspans. unfold after_hash. split.
  - intros (Hlen & q & Hq & Hhash & Hno). split; [exact Hlen|].
    exists q. split; [lia|]. now split.
  - intros (Hlen & q & Hq & Hhash & Hno). split; [exact Hlen|].
    exists q. split; [lia|]. now split.
Qed.

(** ** The helper panel *)

Lemma list_ascii_of_string_append (a b : string) :
  list_ascii_of_string (a ++ b) = list_ascii_of_string a ++ list_ascii_of_string b.
Proof. induction a as [|c a IH]; cbn; [reflexivity | now rewrite IH]. Qed.

Lemma lstrip_chars_blank (pad l : list ascii) :
  forallb PyStr.isspace pad = true ->
  PyStr.lstrip_chars (pad ++ l) = PyStr.lstrip_chars l.
Proof.
  induction pad as [|c pad IH]; cbn; [reflexivity|].
  intros H. apply andb_prop in H as [-> H]. now apply IH.
Qed.

Lemma lstrip_chars_head (c : ascii) (l : list ascii) :
  PyStr.isspace c = false -> PyStr.lstrip_chars (c :: l) = c :: l.
Proof. cbn. now intros ->. Qed.

Lemma forallb_rev {A : Type} (f : A -> bool) (l : list A) :
  forallb f l = true -> forallb f (rev l) = true.
Proof.
  rewrite !forallb_forall. intros H x Hx. apply H. now apply in_rev.
Qed.

Lemma lstrip_chars_word (l rest : list ascii) :
  l <> [] ->
  forallb (fun c => negb (PyStr.isspace c)) l = true ->
  PyStr.lstrip_chars (l ++ rest) = l ++ rest.
Proof.
  destruct l as [|c l]; [contradiction|]. intros _ H. cbn in H.
  apply andb_prop in H as [H _]. apply negb_true_iff in H.
  now apply lstrip_chars_head.
Qed.

(** Stripping a word without white space that stands between blanks gives
    the word. *)
Lemma strip_padded (before word after : string) :
  blank_text before = true -> blank_text after = true ->
  forallb (fun c => negb (PyStr.isspace c)) (list_ascii_of_string word) = true ->
  PyStr.strip (before ++ word ++ after)%string = word.
Proof.
  unfold blank_text, PyStr.strip, PyStr.rstrip_chars. intros Hb Ha Hw.
  rewrite !list_ascii_of_string_append, (lstrip_chars_blank _ _ Hb).
  rewrite <- (string_of_list_ascii_of_string word) at 2. f_equal.
  destruct (list_ascii_of_string word) as [|c l] eqn:E.
  - cbn [app]. rewrite <- (app_nil_r (list_ascii_of_string after)).
    now rewrite (lstrip_chars_blank _ _ Ha).
  - rewrite (lstrip_chars_word (c :: l)) by (try discriminate; exact Hw).
    rewrite rev_app_distr, (lstrip_chars_blank _ _ (forallb_rev _ _ Ha)).
    rewrite <- (app_nil_r (rev (c :: l))).
    rewrite lstrip_chars_word.
    + rewrite app_nil_r. apply rev_involutive.
    + intros Hnil. apply (f_equal (@length ascii)) in Hnil.
      rewrite length_rev in Hnil. discriminate Hnil.
    + now apply forallb_rev.
Qed.

Lemma keyword_help_key (key tip : string) :
  dict_get KEYWORD_HELP key = Some tip ->
  PyStr.truthy key = true /\
  forallb (fun c => negb (PyStr.isspace c)) (list_ascii_of_string key) = true.
Proof.
  unfold KEYWORD_HELP. cbn [dict_get].
  repeat match goal with
         | |- context [String.eqb ?k key] =>
             destruct (String.eqb_spec k key) as [<- | _]; [now split|]
         end.
  discriminate.
Qed.

(** X15.  The helper panel looks up the selection without the white space
    around it: a selection that is a keyword of the help table between
    blanks shows the tip of that keyword, and a selection of blanks only
    shows the fallback text. *)
Theorem helper_panel_ignores_blanks_around_selection
  (before key after tip at_insert : string) :
  dict_get KEYWORD_HELP key = Some tip ->
  blank_text before = true ->
  blank_text after = true ->
  _update_helper_panel (Some (before ++ key ++ after)%string) at_insert = tip /\
  (PyStr.truthy before = true ->
   _update_helper_panel (Some before) at_insert = "Select a keyword to see a tip.").
Proof.
  intros Htip Hb Ha. destruct (keyword_help_key key tip Htip) as [Hkey Hword].
  unfold _update_helper_panel, _current_word. split.
  - assert (Htrue : PyStr.truthy (before ++ key ++ after)%string = true).
    { destruct before; [|reflexivity]. destruct key; [discriminate | reflexivity]. }
    rewrite Htrue, (strip_padded _ _ _ Hb Ha Hword), Htip. reflexivity.
  - intros Htrue. rewrite Htrue.
    assert (E : PyStr.strip before = "").
    { rewrite <- (append_empty_r before).
      rewrite <- (append_empty_r before) in Hb.
      apply (strip_padded before "" ""); [|reflexivity|reflexivity].
      now rewrite append_empty_r in Hb. }
    rewrite E. reflexivity.
Qed.

Lemma helper_panel_ignores_blanks_around_selection_witness :
  _update_helper_panel (Some "  for ") "x"
  = "Iterate over items in a sequence. Syntax: for item in sequence:" /\
  _update_helper_panel (Some "   ") "for" = "Select a keyword to see a tip.".
Proof.
  destruct (helper_panel_ignores_blanks_around_selection "  " "for" " "
              "Iterate over items in a sequence. Syntax: for item in sequence:"
              "x" eq_refl eq_refl eq_refl) as [Htip _].
  split; [exact Htip | reflexivity].
Defined.

(** ** New file after yes *)



(** ** The highlight timer, once more *)

Lemma one_highlight_timer_without_direct_calls_witness :
  let s := run Fragment.exec
             [OnTextChange; Edit "for"; OnTextChange; CheckQuiz; OnTextChange;
              TimerFires 1; OnTextChange]
             (initial Files.Posix (fun _ => None) None) in
  highlight_timers s = [(4, HighlightSyntax)] /\ length (highlight_timers s) <= 1.
Proof.
  intros s. split; [reflexivity|].
  exact (one_highlight_timer_without_direct_calls Fragment.exec Files.Posix
           (fun _ => None) None
           [OnTextChange; Edit "for"; OnTextChange; CheckQuiz; OnTextChange;
            TimerFires 1; OnTextChange] eq_refl).
Defined.
